(** * BREDS, [sentence.py]: sentence-level extraction of entity pairs

    A shallow embedding of the module [breds/sentence.py] and the
    properties of its specification.  Python integers are [Z], Python
    strings are [string], the dictionary of entity locations is a
    [gmap Z Entity], and every Python expression that can raise is a
    computation in the error monad [result]. *)

From Stdlib Require Import ZArith Ascii String List Lia Bool.
From stdpp Require Import base option list gmap strings sorting.

Open Scope string_scope.
Open Scope Z_scope.
Open Scope list_scope.

(** ** Python exceptions and the error monad *)

Inductive exn : Set :=
| AttributeError
| TypeError
| IndexError
| KeyError.

Inductive result (A : Type) : Type :=
| Ok (a : A)
| Raise (e : exn).
Arguments Ok {A} a.
Arguments Raise {A} e.

#[global] Instance result_ret : MRet result := λ A a, Ok a.
#[global] Instance result_bind : MBind result := λ A B k m,
  match m with
  | Ok a => k a
  | Raise e => Raise e
  end.

(** ** Python sequences: indexing and slicing *)

Module Py.

Definition len {A : Type} (l : list A) : Z := Z.of_nat (length l).

(** [l[i]] with Python's negative indices; out of range raises. *)
Definition index {A : Type} (l : list A) (i : Z) : result A :=
  let j := if i <? 0 then i + len l else i in
  if (j <? 0) || (len l <=? j) then Raise IndexError
  else match l !! Z.to_nat j with
       | Some x => Ok x
       | None => Raise IndexError
       end.

(** A slice bound: negative bounds count from the end, then the bound
    is clamped to [0, len]. *)
Definition bound (n i : Z) : Z :=
  let j := if i <? 0 then i + n else i in
  Z.max 0 (Z.min n j).

(** [l[start:stop]]; [None] is an omitted bound. *)
Definition slice {A : Type} (l : list A) (start stop : option Z) : list A :=
  let lo := match start with Some i => bound (len l) i | None => 0 end in
  let hi := match stop with Some i => bound (len l) i | None => len l end in
  take (Z.to_nat (hi - lo)) (drop (Z.to_nat lo) l).

(** [range(n)] *)
Definition range (n : Z) : list Z := seqZ 0 n.

(** [all(f(x) for x in l)] *)
Definition all {A : Type} (f : A → bool) (l : list A) : bool := forallb f l.

(** [x in l] for a list of strings. *)
Definition contains (l : list string) (x : string) : bool :=
  bool_decide (x ∈ l).

End Py.

(** ** The fragment of [re] used by the module

    Patterns are kept as syntax trees; the fragment covers what the
    patterns of this module and of its configuration are written with:
    literals, [c+] over a character class, [r?], concatenation,
    alternation and capturing groups.  Matching is Python's
    backtracking search: [matches] lists the ways a pattern matches at
    the start of the text in the order the backtracking engine tries
    them, so its head is the match that [re] reports.  The scanning
    functions follow [re] for patterns that cannot match the empty
    string, which holds of every pattern in this module. *)

Module Re.

Inductive cclass : Set :=
| Range (lo hi : ascii)      (* [lo-hi] *)
| Except (c : ascii).        (* [^c] *)

Definition in_class (k : cclass) (c : ascii) : bool :=
  match k with
  | Range lo hi =>
      (nat_of_ascii lo <=? nat_of_ascii c)%nat && (nat_of_ascii c <=? nat_of_ascii hi)%nat
  | Except x => negb (Ascii.eqb c x)
  end.

Inductive regex : Set :=
| Lit (s : string)
| Many1 (k : cclass)
| Opt (r : regex)
| Seq (r1 r2 : regex)
| Alt (r1 r2 : regex)
| Group (r : regex).

(** One way of matching: the text consumed, the groups captured (in
    the order of their opening parentheses) and the text left. *)
Definition outcome : Set := (list ascii * list (list ascii) * list ascii)%type.

Fixpoint strip_prefix (p s : list ascii) : option (list ascii) :=
  match p, s with
  | [], _ => Some s
  | a :: p', b :: s' => if Ascii.eqb a b then strip_prefix p' s' else None
  | _ :: _, [] => None
  end.

Fixpoint run_length (k : cclass) (s : list ascii) : nat :=
  match s with
  | c :: s' => if in_class k c then S (run_length k s') else O
  | [] => O
  end.

Fixpoint matches (r : regex) (s : list ascii) : list outcome :=
  match r with
  | Lit t =>
      match strip_prefix (list_ascii_of_string t) s with
      | Some rest => [(list_ascii_of_string t, [], rest)]
      | None => []
      end
  | Many1 k =>
      (* greedy: the longest run first, then shorter ones *)
      map (λ n, (take n s, [], drop n s)) (rev (seq 1 (run_length k s)))
  | Opt r1 => matches r1 s ++ [([], [], s)]
  | Seq r1 r2 =>
      flat_map (λ o1 : outcome,
        let '(c1, g1, rest1) := o1 in
        map (λ o2 : outcome,
               let '(c2, g2, rest2) := o2 in (c1 ++ c2, g1 ++ g2, rest2))
            (matches r2 rest1))
        (matches r1 s)
  | Alt r1 r2 => matches r1 s ++ matches r2 s
  | Group r1 =>
      map (λ o : outcome, let '(c, g, rest) := o in (c, c :: g, rest)) (matches r1 s)
  end.

(** Left-to-right scan for non-overlapping matches; [skip] counts the
    characters still covered by the previous match. *)
Fixpoint scan (r : regex) (s : list ascii) (skip : nat)
  : list (list ascii * list (list ascii)) :=
  match s with
  | [] => []
  | _ :: s' =>
      match skip with
      | S n => scan r s' n
      | O =>
          match head (matches r s) with
          | Some ((_ :: m') as m, g, _) => (m, g) :: scan r s' (length m')
          | _ => scan r s' 0%nat
          end
      end
  end.

Fixpoint replace_all (r : regex) (repl s : list ascii) (skip : nat) : list ascii :=
  match s with
  | [] => []
  | c :: s' =>
      match skip with
      | S n => replace_all r repl s' n
      | O =>
          match head (matches r s) with
          | Some (_ :: m', _, _) => repl ++ replace_all r repl s' (length m')
          | _ => c :: replace_all r repl s' 0%nat
          end
      end
  end.

(** A pattern argument that is not a pattern ([None]) raises
    [TypeError] in [re]. *)
Definition compiled (pattern : option regex) : result regex :=
  match pattern with
  | Some r => Ok r
  | None => Raise TypeError
  end.

(** [re.finditer(pattern, s)]; a match object is kept as its
    [group()], the text it matched. *)
Definition finditer (pattern : option regex) (s : string) : result (list string) :=
  r ← compiled pattern;
  Ok (map (λ m, string_of_list_ascii m.1) (scan r (list_ascii_of_string s) 0%nat)).

(** [re.findall(pattern, s)] for a pattern with at most one group: the
    group of each match, or the whole match without a group. *)
Definition findall (pattern : option regex) (s : string) : result (list string) :=
  r ← compiled pattern;
  Ok (map (λ m, string_of_list_ascii (match m.2 with g :: _ => g | [] => m.1 end))
          (scan r (list_ascii_of_string s) 0%nat)).

(** [re.sub(pattern, repl, s)] for a literal replacement. *)
Definition sub (pattern : option regex) (repl s : string) : result string :=
  r ← compiled pattern;
  Ok (string_of_list_ascii
        (replace_all r (list_ascii_of_string repl) (list_ascii_of_string s) 0%nat)).

Definition upper : cclass := Range "A" "Z".

(** Concatenation of several patterns. *)
Fixpoint cat (rs : list regex) : regex :=
  match rs with
  | [] => Lit ""
  | [r] => r
  | r :: rs' => Seq r (cat rs')
  end.

End Re.

(** ** Data model *)

(** [EntitySimple] and [EntityLinked]: the constructor arguments are the
    attributes [string], [parts], [type], [locations] (and [url]). *)
Inductive Entity : Set :=
| EntitySimple (_e_string : string) (_e_parts : list string) (_e_type : string)
               (_locations : list Z)
| EntityLinked (_e_string : string) (_e_parts : list string) (_e_type : string)
               (_locations : list Z) (_url : string).

Definition e_string (e : Entity) : string :=
  match e with EntitySimple s _ _ _ | EntityLinked s _ _ _ _ => s end.
Definition e_parts (e : Entity) : list string :=
  match e with EntitySimple _ p _ _ | EntityLinked _ p _ _ _ => p end.
Definition e_type (e : Entity) : string :=
  match e with EntitySimple _ _ t _ | EntityLinked _ _ t _ _ => t end.
Definition e_locations (e : Entity) : list Z :=
  match e with EntitySimple _ _ _ l | EntityLinked _ _ _ l _ => l end.
(** Only [EntityLinked] has the attribute [url]. *)
Definition e_url (e : Entity) : result string :=
  match e with
  | EntitySimple _ _ _ _ => Raise AttributeError
  | EntityLinked _ _ _ _ u => Ok u
  end.

(** A tagged text is the sequence of (token, tag) pairs the tagger
    returns.  Python distinguishes lists from tuples: both are sliced
    alike, a list never equals a tuple, and only tuples are hashable. *)
Inductive pyseq : Set :=
| PyList (items : list (string * string))
| PyTuple (items : list (string * string)).

Definition items (s : pyseq) : list (string * string) :=
  match s with PyList l | PyTuple l => l end.

Definition pyseq_slice (s : pyseq) (start stop : option Z) : pyseq :=
  match s with
  | PyList l => PyList (Py.slice l start stop)
  | PyTuple l => PyTuple (Py.slice l start stop)
  end.

#[global] Instance pyseq_eq_dec : EqDecision pyseq.
Proof. solve_decision. Defined.

#[global] Instance Entity_eq_dec : EqDecision Entity.
Proof. solve_decision. Defined.

Module Relationship.
Record t : Set := mk {
  sentence : string;
  before : pyseq;
  between : pyseq;
  after : pyseq;
  e1 : string;
  e2 : string;
  e1_type : string;
  e2_type : string
}.

(** [__eq__] *)
Definition eq (self other : t) : bool :=
  if bool_decide (e1 self = e1 other) && bool_decide (e2 self = e2 other)
     && bool_decide (before self = before other)
     && bool_decide (between self = between other)
     && bool_decide (after self = after other)
  then true else false.
End Relationship.

(** The configuration object lives outside this module; these are the
    attributes the module reads from it. *)
Module Config.
Record t : Set := mk {
  regex_simple : Re.regex;
  regex_linked : Re.regex;
  regex_clean_simple : Re.regex;
  regex_clean_linked : Re.regex;
  tag_type : string
}.
End Config.

Definition tagger : Set := list string → pyseq.

Module Sentence.
(** The attributes of a [Sentence] instance.  [tagged_text],
    [pos_tagger] and [config] may hold [None].  [sentence] is read by
    [find_pair_entities] as [self.sentence]; a Python instance has an
    attribute only once it was assigned, so the slot is optional. *)
Record t : Type := mk {
  relationships : list Relationship.t;
  tagged_text : option pyseq;
  max_tokens : Z;
  min_tokens : Z;
  window_size : Z;
  pos_tagger : option tagger;
  config : option Config.t;
  e1_type : string;
  e2_type : string;
  sentence : option string
}.

Definition set_tagged_text (self : t) (v : pyseq) : t :=
  mk (relationships self) (Some v) (max_tokens self) (min_tokens self)
     (window_size self) (pos_tagger self) (config self) (e1_type self)
     (e2_type self) (sentence self).

(** [self.relationships.append(r)] *)
Definition append (self : t) (r : Relationship.t) : t :=
  mk (relationships self ++ [r]) (tagged_text self) (max_tokens self)
     (min_tokens self) (window_size self) (pos_tagger self) (config self)
     (e1_type self) (e2_type self) (sentence self).
End Sentence.

(** Reading an attribute of [None], or an attribute that was never
    assigned, raises [AttributeError]; subscripting [None] raises
    [TypeError]. *)
Definition getattr {A : Type} (o : option A) : result A :=
  match o with Some a => Ok a | None => Raise AttributeError end.
Definition subscriptable {A : Type} (o : option A) : result A :=
  match o with Some a => Ok a | None => Raise TypeError end.

(** [d[k]] on a dictionary. *)
Definition getitem {V : Type} (d : gmap Z V) (k : Z) : result V :=
  match d !! k with Some v => Ok v | None => Raise KeyError end.

(** [for x in l: self = body(self, x)], stopping at the first exception. *)
Fixpoint for_each {S A : Type} (body : S → A → result S) (l : list A) (self : S)
  : result S :=
  match l with
  | [] => Ok self
  | x :: l' => self' ← body self x; for_each body l' self'
  end.

(** ** Module-level constants *)

(** tokens between entities which do not represent relationships *)
Definition bad_tokens : list string :=
  [","; "("; ")"; ";"; "''"; "``"; "'s"; "-"; "vs."; "v"; "'"; ":"; "."; "--"].

(** ** A concrete setting for the examples *)

(** A tokenizer that splits at blanks.  On the sentences below, whose
    tokens are separated by single blanks, it returns the tokens that
    [word_tokenize] of NLTK returns. *)
Fixpoint split_on (sep : ascii) (s : string) (cur : string) : list string :=
  match s with
  | EmptyString => if bool_decide (cur = "") then [] else [cur]
  | String c s' =>
      if Ascii.eqb c sep then
        (if bool_decide (cur = "") then [] else [cur]) ++ split_on sep s' ""
      else split_on sep s' (cur +:+ String c EmptyString)
  end.

Definition blank_tokenize (s : string) : list string := split_on " " s "".

(** A tagger that returns a list of pairs, as the taggers of NLTK do. *)
Definition list_tagger : tagger :=
  λ tokens,
    PyList (map (λ t, (t, if bool_decide (t = "acquired") then "VBD" else "NN")) tokens).

(** Some of the English stopwords. *)
Definition some_stopwords : list string :=
  ["the"; "a"; "an"; "and"; "of"; "in"; "to"; "is"; "was"; "by"].

(** A hash of strings. *)
Definition length_hash (s : string) : Z := Z.of_nat (String.length s).

(** Modelled from the spec: the configuration object is defined outside
    this module.  Its patterns follow the two tagging schemes,
    [<TYPE>surface text</TYPE>] and
    [<TYPE url=IDENTIFIER>surface text</TYPE>]: the entity patterns are
    ['<[A-Z]+>[^<]+</[A-Z]+>'] and ['<[A-Z]+ url=[^>]+>[^<]+</[A-Z]+>'],
    the cleaning patterns ['</?[A-Z]+>'] and
    ['</[A-Z]+>|<[A-Z]+ url=[^>]+>']. *)
Definition example_config (tag_type : string) : Config.t :=
  Config.mk
    (Re.cat [Re.Lit "<"; Re.Many1 Re.upper; Re.Lit ">"; Re.Many1 (Re.Except "<");
             Re.Lit "</"; Re.Many1 Re.upper; Re.Lit ">"])
    (Re.cat [Re.Lit "<"; Re.Many1 Re.upper; Re.Lit " url="; Re.Many1 (Re.Except ">");
             Re.Lit ">"; Re.Many1 (Re.Except "<");
             Re.Lit "</"; Re.Many1 Re.upper; Re.Lit ">"])
    (Re.cat [Re.Lit "<"; Re.Opt (Re.Lit "/"); Re.Many1 Re.upper; Re.Lit ">"])
    (Re.Alt (Re.cat [Re.Lit "</"; Re.Many1 Re.upper; Re.Lit ">"])
            (Re.cat [Re.Lit "<"; Re.Many1 Re.upper; Re.Lit " url=";
                     Re.Many1 (Re.Except ">"); Re.Lit ">"]))
    tag_type.

Definition google_youtube : string :=
  "<ORG>Google</ORG> acquired <ORG>YouTube</ORG> in 2006 .".

Definition google_youtube_linked : string :=
  "<ORG url=Google_Inc>Google</ORG> acquired <ORG url=YouTube>YouTube</ORG> in 2006 .".

Definition google_youtube_tokens : list string :=
  ["Google"; "acquired"; "YouTube"; "in"; "2006"; "."].

Definition google : Entity := EntitySimple "Google" ["Google"] "ORG" [0].
Definition youtube : Entity := EntitySimple "YouTube" ["YouTube"] "ORG" [2].

Definition google_youtube_index : gmap Z Entity := {[ 0 := google; 2 := youtube ]}.

(** A [Sentence] as the constructor leaves it, and the same with the
    attribute [sentence] assigned. *)
Definition constructed (window_size : Z) : Sentence.t :=
  Sentence.mk [] None 6 1 window_size (Some list_tagger)
              (Some (example_config "simple")) "ORG" "ORG" None.

Definition with_sentence (window_size : Z) : Sentence.t :=
  Sentence.mk [] None 6 1 window_size (Some list_tagger)
              (Some (example_config "simple")) "ORG" "ORG" (Some google_youtube).

Definition google_inc : Entity :=
  EntityLinked "Google Inc" ["Google"; "Inc"] "ORG" [0] "Google".

Definition google_inc_index : gmap Z Entity := {[ 0 := google_inc ]}.

Definition john_tokens : list string := ["John"; "met"; "John"; "."].
Definition john : Entity := EntitySimple "John" ["John"] "PER" [0; 2].
Definition google_linked : Entity := EntityLinked "Google" ["Google"] "ORG" [0; 3] "Google".

Definition google_youtube_tagged : Sentence.t :=
  Sentence.set_tagged_text (with_sentence 3) (list_tagger google_youtube_tokens).

Definition google_youtube_record : Relationship.t :=
  Relationship.mk google_youtube
    (PyList []) (PyList [("acquired", "VBD")])
    (PyList [("in", "NN"); ("2006", "NN"); (".", "NN")])
    "Google" "YouTube" "ORG" "ORG".

(** * The operations of the module *)

Section Collaborators.

(** The NLTK tokenizer and the NLTK English stopword list are used
    through their interface only. *)
Variable word_tokenize : string → list string.
Variable stopwords : list string.

(** Python's built-in [hash] on strings and on tuples of hashes. *)
Variable hash_str : string → Z.
Variable hash_tuple : list Z → Z.

(** The order in which a Python [set] with the given members (listed
    by insertion) is iterated: some rearrangement of them. *)
Variable set_order : list Entity → list Entity.
Hypothesis set_order_perm : ∀ l, set_order l ≡ₚ l.

Definition not_valid : list string := bad_tokens ++ stopwords.

(** ** [tokenize_entity] and [find_locations] *)

Definition tokenize_entity (entity : string) : result (list string) :=
  let parts := word_tokenize entity in
  last ← Py.index parts (-1);
  if bool_decide (last = ".") then
    prev ← Py.index parts (-2);
    let replace := prev +:+ last in
    (* del parts[-1]; del parts[-1]; parts.append(replace) *)
    Ok (removelast (removelast parts) ++ [replace])
  else Ok parts.

Definition find_locations (entity_string : string) (text_tokens : list string)
  : result (list string * list Z) :=
  e_parts ← tokenize_entity entity_string;
  let locations :=
    filter (λ i, Py.slice text_tokens (Some i) (Some (i + Py.len e_parts)) = e_parts)
           (Py.range (Py.len text_tokens)) in
  Ok (e_parts, locations).

(** ** Equality and hashing contracts *)

(** [EntitySimple.__eq__] and [EntityLinked.__eq__] *)
Definition Entity_eq (self other : Entity) : result bool :=
  match self with
  | EntitySimple s _ t _ =>
      Ok (bool_decide (s = e_string other) && bool_decide (t = e_type other))
  | EntityLinked _ _ _ _ u =>
      u' ← e_url other; Ok (bool_decide (u = u'))
  end.

(** [EntitySimple.__hash__] and [EntityLinked.__hash__] *)
Definition Entity_hash (self : Entity) : Z :=
  match self with
  | EntitySimple s _ t _ => Z.lxor (hash_str s) (hash_str t)
  | EntityLinked _ _ _ _ u => hash_str u
  end.

(** [hash] of a tagged text: a list is unhashable. *)
Definition pyseq_hash (s : pyseq) : result Z :=
  match s with
  | PyList _ => Raise TypeError
  | PyTuple l =>
      Ok (hash_tuple (map (λ p : string * string, hash_tuple [hash_str p.1; hash_str p.2]) l))
  end.

(** [Relationship.__hash__] *)
Definition Relationship_hash (self : Relationship.t) : result Z :=
  let h1 := hash_str (Relationship.e1 self) in
  let h2 := hash_str (Relationship.e2 self) in
  hb ← pyseq_hash (Relationship.before self);
  let x := Z.lxor (Z.lxor h1 h2) hb in
  hm ← pyseq_hash (Relationship.between self);
  let x := Z.lxor x hm in
  ha ← pyseq_hash (Relationship.after self);
  Ok (Z.lxor x ha).

(** ** A [set] of entities

    The members in insertion order.  Looking a value up compares it,
    with the member's [__eq__], against the members of equal hash. *)
Fixpoint set_contains (s : list Entity) (e : Entity) : result bool :=
  match s with
  | [] => Ok false
  | x :: s' =>
      if Entity_hash x =? Entity_hash e then
        b ← Entity_eq x e;
        if b : bool then Ok true else set_contains s' e
      else set_contains s' e
  end.

(** [s.add(e)]: a value equal to a member is not added. *)
Definition set_add (s : list Entity) (e : Entity) : result (list Entity) :=
  b ← set_contains s e;
  Ok (if b : bool then s else s ++ [e]).

(** ** [Sentence.extract_entities] *)

(** ['<([A-Z]+)'] *)
Definition type_regex : Re.regex :=
  Re.Seq (Re.Lit "<") (Re.Group (Re.Many1 Re.upper)).
(** ['url=([^>]+)'] *)
Definition url_regex : Re.regex :=
  Re.Seq (Re.Lit "url=") (Re.Group (Re.Many1 (Re.Except ">"))).
(** ["simple": '<[A-Z]+>([^<]+)</[A-Z]+>',
    "linked": '<[A-Z]+ url=[^>]+>([^<]+)</[A-Z]+>'] *)
Definition string_regexs : gmap string Re.regex :=
  {[ "simple" :=
       Re.cat [Re.Lit "<"; Re.Many1 Re.upper; Re.Lit ">";
               Re.Group (Re.Many1 (Re.Except "<"));
               Re.Lit "</"; Re.Many1 Re.upper; Re.Lit ">"];
     "linked" :=
       Re.cat [Re.Lit "<"; Re.Many1 Re.upper; Re.Lit " url=";
               Re.Many1 (Re.Except ">"); Re.Lit ">";
               Re.Group (Re.Many1 (Re.Except "<"));
               Re.Lit "</"; Re.Many1 Re.upper; Re.Lit ">"] ]}.

(** [re.findall(pattern, s)[0]] *)
Definition first_match (pattern : option Re.regex) (s : string) : result string :=
  l ← Re.findall pattern s; Py.index l 0.

(** The body of the first loop, for the matched text [entity] of one
    match object: the entity object that is created, if the scheme is
    one of the two. *)
Definition make_entity (config : Config.t) (text_tokens : list string)
    (entity : string) : result (option Entity) :=
  let string_regex := string_regexs !! Config.tag_type config in
  e_type ← first_match (Some type_regex) entity;
  e_string ← first_match string_regex entity;
  '(e_parts, locations) ← find_locations e_string text_tokens;
  if bool_decide (Config.tag_type config = "simple") then
    Ok (Some (EntitySimple e_string e_parts e_type locations))
  else if bool_decide (Config.tag_type config = "linked") then
    e_url ← first_match (Some url_regex) entity;
    Ok (Some (EntityLinked e_string e_parts e_type locations e_url))
  else Ok None.

(** ... and its addition to the set. *)
Definition extract_entity (config : Config.t) (text_tokens : list string)
    (entities_info : list Entity) (entity : string) : result (list Entity) :=
  e ← make_entity config text_tokens entity;
  match e with
  | Some e => set_add entities_info e
  | None => Ok entities_info
  end.

(** The second loop: key is the starting index in the tokenized
    sentence of an entity, value the corresponding entity. *)
Definition index_entities (iteration : list Entity) : gmap Z Entity :=
  foldl (λ locations e,
           foldl (λ locations start, <[start := e]> locations) locations (e_locations e))
        ∅ iteration.

Definition extract_entities (entities : list string) (text_tokens : list string)
    (config : Config.t) : result (gmap Z Entity) :=
  entities_info ← for_each (extract_entity config text_tokens) entities [];
  Ok (index_entities (set_order entities_info)).

(** ** [Sentence.add_relationship] *)

Definition add_relationship (self : Sentence.t) (sentence : string)
    (text_tokens : list string) (e1_index e2_index : Z) (e1 e2 : Entity)
  : result Sentence.t :=
  tagged_text ← subscriptable (Sentence.tagged_text self);
  let before := pyseq_slice tagged_text None (Some e1_index) in
  let before := pyseq_slice before (Some (- Sentence.window_size self)) None in
  let between :=
    pyseq_slice tagged_text (Some (e1_index + Py.len (e_parts e1))) (Some e2_index) in
  let after := pyseq_slice tagged_text (Some (e2_index + Py.len (e_parts e2))) None in
  let after := pyseq_slice after None (Some (Sentence.window_size self)) in
  (* ignore relationships where BET context is only stopwords
     or other invalid words *)
  if Py.all (Py.contains not_valid)
       (Py.slice text_tokens (Some (e1_index + Py.len (e_parts e1))) (Some e2_index))
  then Ok self
  else
    config ← getattr (Sentence.config self);
    if bool_decide (Config.tag_type config = "simple") then
      let r := Relationship.mk sentence before between after
                 (e_string e1) (e_string e2) (e_type e1) (e_type e2) in
      Ok (Sentence.append self r)
    else if bool_decide (Config.tag_type config = "linked") then
      u1 ← e_url e1;
      u2 ← e_url e2;
      let r := Relationship.mk sentence before between after
                 u1 u2 (e_type e1) (e_type e2) in
      Ok (Sentence.append self r)
    else Ok self.

(** ** [Sentence.find_pair_entities] *)

(** [list(sorted(locations))] *)
Definition sorted (locations : gmap Z Entity) : list Z :=
  merge_sort Z.le (elements (dom locations)).

(** The first half of the loop body: the pair at two keys is looked
    up and tested; [None] is a [continue]. *)
Definition select_pair (self : Sentence.t) (locations : gmap Z Entity)
    (e1_index e2_index : Z) : result (option (Entity * Entity)) :=
  let distance := e2_index - e1_index in
  e1 ← getitem locations e1_index;
  e2 ← getitem locations e2_index;
  if (Sentence.max_tokens self <? distance) || (distance <? Sentence.min_tokens self)
     || negb (bool_decide (e_type e1 = Sentence.e1_type self))
     || negb (bool_decide (e_type e2 = Sentence.e2_type self))
  then Ok None
  else
    (* ignore relationships between the same entity *)
    config ← getattr (Sentence.config self);
    if bool_decide (Config.tag_type config = "simple")
       && bool_decide (e_string e1 = e_string e2)
    then Ok None
    else
      same_url ←
        (if bool_decide (Config.tag_type config = "linked")
         then u1 ← e_url e1; u2 ← e_url e2; Ok (bool_decide (u1 = u2))
         else Ok false);
      if same_url : bool then Ok None else Ok (Some (e1, e2)).

(** The second half: tag the sentence once, then add the
    relationship of the selected pair. *)
Definition emit_pair (self : Sentence.t) (text_tokens : list string)
    (e1_index e2_index : Z) (e1 e2 : Entity) : result Sentence.t :=
  self ←
    match Sentence.tagged_text self with
    | None =>
        pos_tagger ← getattr (Sentence.pos_tagger self);
        Ok (Sentence.set_tagged_text self (pos_tagger text_tokens))
    | Some _ => Ok self
    end;
  sentence ← getattr (Sentence.sentence self);
  add_relationship self sentence text_tokens e1_index e2_index e1 e2.

Definition find_pair_step (locations : gmap Z Entity) (text_tokens : list string)
    (sorted_keys : list Z) (self : Sentence.t) (i : Z) : result Sentence.t :=
  e1_index ← Py.index sorted_keys i;
  e2_index ← Py.index sorted_keys (i + 1);
  selected ← select_pair self locations e1_index e2_index;
  match selected with
  | None => Ok self
  | Some (e1, e2) => emit_pair self text_tokens e1_index e2_index e1 e2
  end.

Definition find_pair_entities (self : Sentence.t) (locations : gmap Z Entity)
    (text_tokens : list string) : result Sentence.t :=
  let sorted_keys := sorted locations in
  for_each (find_pair_step locations text_tokens sorted_keys)
           (Py.range (Py.len sorted_keys - 1)) self.

(** ** [Sentence.__init__] *)

Definition Sentence_init (sentence e1_type e2_type : string)
    (max_tokens min_tokens window_size : Z)
    (pos_tagger : option tagger) (config : option Config.t) : result Sentence.t :=
  let self :=
    Sentence.mk [] None max_tokens min_tokens window_size pos_tagger config
                e1_type e2_type None in
  (* determine which type of regex to use according to
     how named-entities are tagged *)
  cfg ← getattr config;
  let entities_regexs : gmap string Re.regex :=
    {[ "simple" := Config.regex_simple cfg;
       "linked" := Config.regex_linked cfg ]} in
  let clean_regexs : gmap string Re.regex :=
    {[ "simple" := Config.regex_clean_simple cfg;
       "clean" := Config.regex_clean_linked cfg ]} in
  let entities_regex := entities_regexs !! Config.tag_type cfg in
  let clean_regex := clean_regexs !! Config.tag_type cfg in
  (* find named-entities *)
  entities ← Re.finditer entities_regex sentence;
  if Py.len entities <? 2 then Ok self
  else
    (* clean tags from text *)
    sentence_no_tags ← Re.sub clean_regex "" sentence;
    let text_tokens := word_tokenize sentence_no_tags in
    locations ← extract_entities entities text_tokens cfg;
    find_pair_entities self locations text_tokens.

(** ** Properties stated on the operations *)

(** The relationship [r] carries the identities of two entities of the
    index that differ under the identity rule of the scheme. *)
Definition distinct_arguments (self : Sentence.t) (locations : gmap Z Entity)
    (r : Relationship.t) : Prop :=
  ∃ cfg e1_index e2_index e1 e2,
    Sentence.config self = Some cfg
    ∧ locations !! e1_index = Some e1 ∧ locations !! e2_index = Some e2
    ∧ ((Config.tag_type cfg = "simple"
        ∧ Relationship.e1 r = e_string e1 ∧ Relationship.e2 r = e_string e2
        ∧ e_string e1 ≠ e_string e2)
       ∨ (Config.tag_type cfg = "linked"
          ∧ e_url e1 = Ok (Relationship.e1 r) ∧ e_url e2 = Ok (Relationship.e2 r)))
    ∧ Relationship.e1 r ≠ Relationship.e2 r.

(** Merged occurrences: whenever two matches yield entities that
    compare equal, every occurrence of either one is a key of the
    index. *)
Definition duplicates_merged (entities : list string) (text_tokens : list string)
    (config : Config.t) : Prop :=
  ∀ locations, extract_entities entities text_tokens config = Ok locations →
  ∀ (j k : nat) (entity_j entity_k : string) (e_j e_k : Entity),
    j ≠ k →
    entities !! j = Some entity_j → entities !! k = Some entity_k →
    make_entity config text_tokens entity_j = Ok (Some e_j) →
    make_entity config text_tokens entity_k = Ok (Some e_k) →
    Entity_eq e_j e_k = Ok true →
    ∀ start, start ∈ e_locations e_j ∨ start ∈ e_locations e_k →
             is_Some (locations !! start).

(** The text of a list of tokens: the tokens one after the other. *)
Definition text_of (tokens : list string) : string := foldr String.append "" tokens.

(** Apart from the list of relationships, [add_relationship] leaves the
    [Sentence] as it is. *)
Definition same_attributes (self self' : Sentence.t) : Prop :=
  Sentence.max_tokens self' = Sentence.max_tokens self
  ∧ Sentence.min_tokens self' = Sentence.min_tokens self
  ∧ Sentence.window_size self' = Sentence.window_size self
  ∧ Sentence.pos_tagger self' = Sentence.pos_tagger self
  ∧ Sentence.config self' = Sentence.config self
  ∧ Sentence.e1_type self' = Sentence.e1_type self
  ∧ Sentence.e2_type self' = Sentence.e2_type self
  ∧ Sentence.sentence self' = Sentence.sentence self.

(** The text was left as it was, or it had no tags and was tagged. *)
Definition tagged_once (text_tokens : list string) (self self' : Sentence.t) : Prop :=
  Sentence.tagged_text self' = Sentence.tagged_text self
  ∨ (Sentence.tagged_text self = None
     ∧ ∃ pos_tagger : tagger,
         Sentence.pos_tagger self = Some pos_tagger
         ∧ Sentence.tagged_text self' = Some (pos_tagger text_tokens)).

(** The relationship carries the expected types and the sentence of the
    [Sentence]. *)
Definition of_sentence (self : Sentence.t) (r : Relationship.t) : Prop :=
  Relationship.e1_type r = Sentence.e1_type self
  ∧ Relationship.e2_type r = Sentence.e2_type self
  ∧ Sentence.sentence self = Some (Relationship.sentence r).

(** No two members at different places compare equal. *)
Definition pairwise_unequal (s : list Entity) : Prop :=
  ∀ (i j : nat) (x y : Entity),
    i ≠ j → s !! i = Some x → s !! j = Some y → Entity_eq x y ≠ Ok true.

(** A pair of the index: the two keys and the entities stored there. *)
Definition pair : Type := (Z * Z * Entity * Entity)%type.

(** The pair sits at two consecutive places of the sorted keys of the
    index and passes the tests of the loop body. *)
Definition selected_at (self : Sentence.t) (locations : gmap Z Entity) (p : pair) : Prop :=
  let '(e1_index, e2_index, e1, e2) := p in
  ∃ i : nat,
    sorted locations !! i = Some e1_index
    ∧ sorted locations !! S i = Some e2_index
    ∧ select_pair self locations e1_index e2_index = Ok (Some (e1, e2)).

(** The emission of a selected pair. *)
Definition emit_selected (text_tokens : list string) (self : Sentence.t) (p : pair)
  : result Sentence.t :=
  let '(e1_index, e2_index, e1, e2) := p in
  emit_pair self text_tokens e1_index e2_index e1 e2.

(** The relationship was built from the pair: its windows are the
    slices of the tagged text of [self] around the two entities, and
    its arguments are the identities of the two entities under the
    scheme of the configuration. *)
Definition built_from (self : Sentence.t) (p : pair) (r : Relationship.t) : Prop :=
  let '(e1_index, e2_index, e1, e2) := p in
  ∃ tagged_text cfg,
    Sentence.tagged_text self = Some tagged_text
    ∧ Sentence.config self = Some cfg
    ∧ Relationship.before r
      = pyseq_slice (pyseq_slice tagged_text None (Some e1_index))
                    (Some (- Sentence.window_size self)) None
    ∧ Relationship.between r
      = pyseq_slice tagged_text (Some (e1_index + Py.len (e_parts e1))) (Some e2_index)
    ∧ Relationship.after r
      = pyseq_slice (pyseq_slice tagged_text (Some (e2_index + Py.len (e_parts e2))) None)
                    None (Some (Sentence.window_size self))
    ∧ ((Config.tag_type cfg = "simple"
        ∧ Relationship.e1 r = e_string e1 ∧ Relationship.e2 r = e_string e2)
       ∨ (Config.tag_type cfg = "linked"
          ∧ e_url e1 = Ok (Relationship.e1 r) ∧ e_url e2 = Ok (Relationship.e2 r))).

(** The match at place [k] yields the entity [e], and no earlier match
    yields an entity that compares equal to it. *)
Definition first_parse (config : Config.t) (text_tokens : list string)
    (entities : list string) (k : nat) (e : Entity) : Prop :=
  (∃ entity, entities !! k = Some entity
             ∧ make_entity config text_tokens entity = Ok (Some e))
  ∧ ∀ (j : nat) (entity' : string) (e' : Entity),
      (j < k)%nat → entities !! j = Some entity' →
      make_entity config text_tokens entity' = Ok (Some e') →
      Entity_eq e' e ≠ Ok true.

(** ** The error monad *)

Lemma rbind_Ok {A B : Type} (m : result A) (k : A → result B) (b : B) :
  m ≫= k = Ok b → ∃ a, m = Ok a ∧ k a = Ok b.
Proof. destruct m as [a|e]; simpl; [eauto | discriminate]. Qed.

(** ** Properties of [tokenize_entity] *)

Lemma index_last {A : Type} (l : list A) (a : A) : Py.index (l ++ [a]) (-1) = Ok a.
Proof.
  unfold Py.index, Py.len. rewrite length_app. simpl.
  replace (-1 + Z.of_nat (length l + 1)) with (Z.of_nat (length l)) by lia.
  destruct (Z.ltb_spec (Z.of_nat (length l)) 0); [lia|].
  destruct (Z.leb_spec (Z.of_nat (length l + 1)) (Z.of_nat (length l))); [lia|].
  simpl. rewrite Nat2Z.id.
  rewrite lookup_app_r by lia. by rewrite Nat.sub_diag.
Qed.

Lemma index_before_last {A : Type} (l : list A) (a b : A) :
  Py.index (l ++ [a; b]) (-2) = Ok a.
Proof.
  unfold Py.index, Py.len. rewrite length_app. simpl.
  replace (-2 + Z.of_nat (length l + 2)) with (Z.of_nat (length l)) by lia.
  destruct (Z.ltb_spec (Z.of_nat (length l)) 0); [lia|].
  destruct (Z.leb_spec (Z.of_nat (length l + 2)) (Z.of_nat (length l))); [lia|].
  simpl. rewrite Nat2Z.id.
  rewrite lookup_app_r by lia. by rewrite Nat.sub_diag.
Qed.

Lemma two_last {A : Type} (l : list A) :
  (2 ≤ length l)%nat → ∃ l' a b, l = l' ++ [a; b].
Proof.
  intros Hl. destruct l as [|x l] using rev_ind; [simpl in Hl; lia|].
  clear IHl. destruct l as [|y l _] using rev_ind.
  - simpl in Hl. lia.
  - exists l, y, x. by rewrite <- app_assoc.
Qed.

(** C10: [tokenize_entity] returns for every surface string with at
    least two tokens, merging the last two tokens when the final one
    is a standalone period, and raises [IndexError] when the
    tokenization is empty or is the single token ["."]. *)
Theorem tokenize_entity_partial (entity : string) :
  let parts := word_tokenize entity in
  ((2 ≤ length parts)%nat →
     ∃ prev final,
       parts !! (length parts - 2)%nat = Some prev ∧
       parts !! (length parts - 1)%nat = Some final ∧
       tokenize_entity entity =
         Ok (if bool_decide (final = ".")
             then take (length parts - 2) parts ++ [prev +:+ "."]
             else parts))
  ∧ (parts = [] ∨ parts = ["."] → tokenize_entity entity = Raise IndexError).
Proof.
  intros parts. split.
  - intros Hlen. destruct (two_last parts Hlen) as (l & a & b & Hparts).
    exists a, b. unfold tokenize_entity. fold parts. rewrite Hparts.
    rewrite length_app. simpl.
    split; [|split].
    + rewrite lookup_app_r by lia. by replace (length l + 2 - 2 - length l)%nat with O by lia.
    + rewrite lookup_app_r by lia. by replace (length l + 2 - 1 - length l)%nat with 1%nat by lia.
    + replace (l ++ [a; b]) with ((l ++ [a]) ++ [b]) at 1 by (by rewrite <- app_assoc).
      rewrite index_last. simpl.
      destruct (bool_decide (b = ".")) eqn:Hb; [|done].
      rewrite index_before_last. simpl.
      replace (l ++ [a; b]) with ((l ++ [a]) ++ [b]) by (by rewrite <- app_assoc).
      rewrite !removelast_last.
      replace (length l + 2 - 2)%nat with (length l) by lia.
      rewrite <- (app_assoc l [a] [b]). simpl.
      rewrite take_app_length.
      apply bool_decide_eq_true in Hb. by subst b.
  - intros [Hp|Hp]; unfold tokenize_entity; fold parts; rewrite Hp; reflexivity.
Qed.

(** ** Properties of [Sentence.__init__] *)

Lemma lookup_entities_regexs (a b : Re.regex) (tag : string) :
  ({[ "simple" := a; "linked" := b ]} : gmap string Re.regex) !! tag =
    if bool_decide (tag = "simple") then Some a
    else if bool_decide (tag = "linked") then Some b else None.
Proof.
  repeat case_bool_decide; subst.
  - by rewrite lookup_insert_eq.
  - rewrite lookup_insert_ne by done. by rewrite lookup_singleton_eq.
  - rewrite lookup_insert_ne by done. by rewrite lookup_singleton_ne.
Qed.

Lemma lookup_clean_regexs (a b : Re.regex) (tag : string) :
  ({[ "simple" := a; "clean" := b ]} : gmap string Re.regex) !! tag =
    if bool_decide (tag = "simple") then Some a
    else if bool_decide (tag = "clean") then Some b else None.
Proof.
  repeat case_bool_decide; subst.
  - by rewrite lookup_insert_eq.
  - rewrite lookup_insert_ne by done. by rewrite lookup_singleton_eq.
  - rewrite lookup_insert_ne by done. by rewrite lookup_singleton_ne.
Qed.

(** C8: a sentence with fewer than two entity matches under the
    configured scheme yields a [Sentence] whose list of relationships
    is empty, and nothing after the entity matching is run: the text
    is not tagged. *)
Theorem init_few_entities (sentence e1_type e2_type : string)
    (max_tokens min_tokens window_size : Z) (pos_tagger : option tagger)
    (cfg : Config.t) (r : Re.regex) (entities : list string) :
  (Config.tag_type cfg = "simple" ∧ r = Config.regex_simple cfg)
  ∨ (Config.tag_type cfg = "linked" ∧ r = Config.regex_linked cfg) →
  Re.finditer (Some r) sentence = Ok entities →
  (length entities < 2)%nat →
  ∃ self,
    Sentence_init sentence e1_type e2_type max_tokens min_tokens window_size
                  pos_tagger (Some cfg) = Ok self
    ∧ Sentence.relationships self = []
    ∧ Sentence.tagged_text self = None.
Proof.
  intros Hscheme Hfind Hlen.
  eexists. unfold Sentence_init. simpl.
  rewrite lookup_entities_regexs.
  assert ((if bool_decide (Config.tag_type cfg = "simple")
           then Some (Config.regex_simple cfg)
           else if bool_decide (Config.tag_type cfg = "linked")
                then Some (Config.regex_linked cfg) else None) = Some r) as ->.
  { destruct Hscheme as [[-> ->]|[-> ->]]; reflexivity. }
  rewrite Hfind. simpl.
  destruct (Z.ltb_spec (Py.len entities) 2) as [_|Hge];
    [|unfold Py.len in Hge; lia].
  split; [reflexivity|]. split; reflexivity.
Qed.

(** Under the linked scheme the pattern used to clean the tags is
    looked up under a key the dictionary does not have: with two or
    more entity matches [re.sub] is called on [None]. *)
Lemma init_linked_raises (sentence e1_type e2_type : string)
    (max_tokens min_tokens window_size : Z) (pos_tagger : option tagger)
    (cfg : Config.t) (entities : list string) :
  Config.tag_type cfg = "linked" →
  Re.finditer (Some (Config.regex_linked cfg)) sentence = Ok entities →
  (2 ≤ length entities)%nat →
  Sentence_init sentence e1_type e2_type max_tokens min_tokens window_size
                pos_tagger (Some cfg) = Raise TypeError.
Proof.
  intros Htag Hfind Hlen. unfold Sentence_init. simpl.
  rewrite lookup_entities_regexs, lookup_clean_regexs, Htag.
  rewrite (bool_decide_eq_false_2 ("linked" = "simple")) by done.
  rewrite (bool_decide_eq_false_2 ("linked" = "clean")) by done.
  rewrite (bool_decide_eq_true_2 ("linked" = "linked")) by done.
  rewrite Hfind. simpl.
  destruct (Z.ltb_spec (Py.len entities) 2) as [Hlt|_];
    [unfold Py.len in Hlt; lia|].
  reflexivity.
Qed.

(** ** Properties of [Sentence.add_relationship] *)

Lemma all_contains (l xs : list string) :
  Py.all (Py.contains l) xs = true ↔ ∀ x, x ∈ xs → x ∈ l.
Proof.
  unfold Py.all, Py.contains. rewrite forallb_forall. split.
  - intros H x Hx. apply list_elem_of_In in Hx. apply H in Hx.
    by apply bool_decide_eq_true in Hx.
  - intros H x Hx. apply bool_decide_eq_true, H. by apply list_elem_of_In.
Qed.

Lemma all_contains_false (l xs : list string) :
  Py.all (Py.contains l) xs = false → ∃ x, x ∈ xs ∧ x ∉ l.
Proof.
  induction xs as [|x xs IH]; simpl; [discriminate|].
  intros H. apply andb_false_iff in H. destruct H as [H|H].
  - exists x. split; [left|]. by apply bool_decide_eq_false in H.
  - destruct (IH H) as (y & Hy & Hny). exists y. split; [by right|done].
Qed.

Lemma append_relationships (self : Sentence.t) (r : Relationship.t) :
  Sentence.relationships (Sentence.append self r) = Sentence.relationships self ++ [r].
Proof. reflexivity. Qed.

Lemma app_singleton_neq {A : Type} (l : list A) (x : A) : l ++ [x] ≠ l.
Proof.
  intros H. apply (f_equal length) in H. rewrite length_app in H. simpl in H. lia.
Qed.

(** What [add_relationship] does, case by case. *)
Lemma add_relationship_cases (self self' : Sentence.t) (sentence : string)
    (text_tokens : list string) (e1_index e2_index : Z) (e1 e2 : Entity) :
  add_relationship self sentence text_tokens e1_index e2_index e1 e2 = Ok self' →
  let raw := Py.slice text_tokens (Some (e1_index + Py.len (e_parts e1))) (Some e2_index) in
  self' = self
  ∨ (Py.all (Py.contains not_valid) raw = false
     ∧ ∃ tagged_text cfg a1 a2,
         Sentence.tagged_text self = Some tagged_text
         ∧ Sentence.config self = Some cfg
         ∧ ((Config.tag_type cfg = "simple" ∧ a1 = e_string e1 ∧ a2 = e_string e2)
            ∨ (Config.tag_type cfg = "linked" ∧ e_url e1 = Ok a1 ∧ e_url e2 = Ok a2))
         ∧ self' = Sentence.append self
             (Relationship.mk sentence
                (pyseq_slice (pyseq_slice tagged_text None (Some e1_index))
                             (Some (- Sentence.window_size self)) None)
                (pyseq_slice tagged_text (Some (e1_index + Py.len (e_parts e1)))
                             (Some e2_index))
                (pyseq_slice (pyseq_slice tagged_text
                                (Some (e2_index + Py.len (e_parts e2))) None)
                             None (Some (Sentence.window_size self)))
                a1 a2 (e_type e1) (e_type e2))).
Proof.
  intros H raw. unfold add_relationship in H. fold raw in H.
  destruct (Sentence.tagged_text self) as [tagged|] eqn:Htag; [|discriminate].
  simpl in H.
  destruct (Py.all (Py.contains not_valid) raw) eqn:Hall.
  { left. congruence. }
  destruct (Sentence.config self) as [cfg|] eqn:Hcfg; [|discriminate].
  simpl in H.
  case_bool_decide as Hs.
  { right. split; [done|]. exists tagged, cfg, (e_string e1), (e_string e2).
    repeat split; [by left|congruence]. }
  case_bool_decide as Hl; [|left; congruence].
  destruct (e_url e1) as [u1|] eqn:Hu1; [|discriminate].
  destruct (e_url e2) as [u2|] eqn:Hu2; [|discriminate].
  simpl in H.
  right. split; [done|]. exists tagged, cfg, u1, u2.
  repeat split; [by right|congruence].
Qed.

(** C5: a relationship that [add_relationship] appends has, between
    the end of the first entity and the start of the second, a raw
    token outside the not-valid set; a candidate whose raw between
    tokens are all not valid leaves the [Sentence] unchanged. *)
Theorem between_not_all_invalid (self self' : Sentence.t) (sentence : string)
    (text_tokens : list string) (e1_index e2_index : Z) (e1 e2 : Entity) :
  add_relationship self sentence text_tokens e1_index e2_index e1 e2 = Ok self' →
  let raw := Py.slice text_tokens (Some (e1_index + Py.len (e_parts e1))) (Some e2_index) in
  (∀ r, Sentence.relationships self' = Sentence.relationships self ++ [r] →
        ∃ x, x ∈ raw ∧ x ∉ not_valid)
  ∧ ((∀ x, x ∈ raw → x ∈ not_valid) → self' = self).
Proof.
  intros H raw. split.
  - intros r Hr.
    destruct (add_relationship_cases _ _ _ _ _ _ _ _ H) as [->|[Hall _]].
    { symmetry in Hr. by apply app_singleton_neq in Hr. }
    fold raw in Hall. by apply all_contains_false.
  - intros Hall. apply all_contains in Hall.
    unfold add_relationship in H. fold raw in H.
    destruct (Sentence.tagged_text self); [|discriminate]. simpl in H.
    rewrite Hall in H. congruence.
Qed.

(** *** The context windows *)

Lemma slice_to {A : Type} (l : list A) (i : Z) :
  0 ≤ i → Py.slice l None (Some i) = take (Z.to_nat i) l.
Proof.
  intros Hi. unfold Py.slice, Py.bound, Py.len.
  destruct (Z.ltb_spec i 0); [lia|].
  rewrite drop_0, Z.sub_0_r.
  destruct (Z.le_gt_cases i (Z.of_nat (length l))).
  - f_equal. lia.
  - rewrite !take_ge by lia. done.
Qed.

Lemma slice_from {A : Type} (l : list A) (i : Z) :
  0 ≤ i → Py.slice l (Some i) None = drop (Z.to_nat i) l.
Proof.
  intros Hi. unfold Py.slice, Py.bound, Py.len.
  destruct (Z.ltb_spec i 0); [lia|].
  destruct (Z.le_gt_cases i (Z.of_nat (length l))).
  - rewrite take_ge; [f_equal; lia|]. rewrite length_drop. lia.
  - rewrite take_ge by (rewrite length_drop; lia).
    rewrite !drop_ge by lia. done.
Qed.

Lemma slice_last_n {A : Type} (l : list A) (w : Z) :
  0 < w → Py.slice l (Some (- w)) None = drop (length l - Z.to_nat w) l.
Proof.
  intros Hw. unfold Py.slice, Py.bound, Py.len.
  destruct (Z.ltb_spec (- w) 0); [|lia].
  rewrite take_ge by (rewrite length_drop; lia).
  f_equal. lia.
Qed.

(** [l[-0:]] is [l[0:]]: the whole sequence. *)
Lemma slice_last_zero {A : Type} (l : list A) : Py.slice l (Some (- 0)) None = l.
Proof.
  unfold Py.slice, Py.bound, Py.len. simpl.
  rewrite Z.min_r by lia. rewrite Z.max_l by lia. simpl.
  rewrite drop_0, Z.sub_0_r, Nat2Z.id. apply firstn_all.
Qed.

Lemma items_slice (s : pyseq) (start stop : option Z) :
  items (pyseq_slice s start stop) = Py.slice (items s) start stop.
Proof. by destruct s. Qed.

(** With a positive window size the before window holds the last
    [window_size] tagged tokens in front of the first entity, fewer
    only when the sentence starts closer than that. *)
Lemma before_window_length (tagged_text : pyseq) (e1_index w : Z) :
  0 < w → 0 ≤ e1_index →
  Py.len (items (pyseq_slice (pyseq_slice tagged_text None (Some e1_index))
                             (Some (- w)) None))
  = Z.min w (Z.min e1_index (Py.len (items tagged_text))).
Proof.
  intros Hw Hi. rewrite !items_slice, slice_to, slice_last_n by lia.
  unfold Py.len. rewrite length_drop, length_take. lia.
Qed.

(** With a window size of zero the before window is everything in
    front of the first entity. *)
Lemma before_window_zero (tagged_text : pyseq) (e1_index : Z) :
  pyseq_slice (pyseq_slice tagged_text None (Some e1_index)) (Some (- 0)) None
  = pyseq_slice tagged_text None (Some e1_index).
Proof. destruct tagged_text; simpl; by rewrite slice_last_zero. Qed.

(** The after window holds the first [window_size] tagged tokens
    behind the second entity, fewer only when the sentence ends closer
    than that. *)
Lemma after_window_length (tagged_text : pyseq) (stop w : Z) :
  0 ≤ w → 0 ≤ stop →
  Py.len (items (pyseq_slice (pyseq_slice tagged_text (Some stop) None)
                             None (Some w)))
  = Z.min w (Z.max 0 (Py.len (items tagged_text) - stop)).
Proof.
  intros Hw Hi. rewrite !items_slice, slice_from, slice_to by lia.
  unfold Py.len. rewrite length_take, length_drop. lia.
Qed.

(** When the between tokens are not all invalid, the configuration
    names a scheme and the entities are of that scheme, the
    relationship is appended. *)
Lemma add_relationship_appends (self : Sentence.t) (sentence : string)
    (text_tokens : list string) (e1_index e2_index : Z) (e1 e2 : Entity)
    (tagged_text : pyseq) (cfg : Config.t) (a1 a2 : string) :
  Sentence.tagged_text self = Some tagged_text →
  Sentence.config self = Some cfg →
  Py.all (Py.contains not_valid)
    (Py.slice text_tokens (Some (e1_index + Py.len (e_parts e1))) (Some e2_index)) = false →
  (Config.tag_type cfg = "simple" ∧ a1 = e_string e1 ∧ a2 = e_string e2)
  ∨ (Config.tag_type cfg = "linked" ∧ e_url e1 = Ok a1 ∧ e_url e2 = Ok a2) →
  ∃ r, add_relationship self sentence text_tokens e1_index e2_index e1 e2
       = Ok (Sentence.append self r)
       ∧ Relationship.e1 r = a1 ∧ Relationship.e2 r = a2
       ∧ Relationship.sentence r = sentence.
Proof.
  intros Htag Hcfg Hall Hscheme. unfold add_relationship.
  rewrite Htag. simpl. rewrite Hall, Hcfg. simpl.
  destruct Hscheme as [(Hs & -> & ->)|(Hl & Hu1 & Hu2)].
  - rewrite Hs. simpl. eexists. split; [reflexivity|]. done.
  - rewrite Hl, Hu1, Hu2. simpl. eexists. split; [reflexivity|]. done.
Qed.

(** ** Properties of [Sentence.find_pair_entities] *)

Lemma getitem_Ok {V : Type} (d : gmap Z V) (k : Z) (v : V) :
  getitem d k = Ok v → d !! k = Some v.
Proof. unfold getitem. destruct (d !! k); congruence. Qed.

(** What a selected pair satisfies. *)
Lemma select_pair_Some (self : Sentence.t) (locations : gmap Z Entity)
    (e1_index e2_index : Z) (e1 e2 : Entity) :
  select_pair self locations e1_index e2_index = Ok (Some (e1, e2)) →
  locations !! e1_index = Some e1 ∧ locations !! e2_index = Some e2
  ∧ Sentence.min_tokens self ≤ e2_index - e1_index ≤ Sentence.max_tokens self
  ∧ e_type e1 = Sentence.e1_type self ∧ e_type e2 = Sentence.e2_type self
  ∧ ∃ cfg, Sentence.config self = Some cfg
      ∧ (Config.tag_type cfg = "simple" → e_string e1 ≠ e_string e2)
      ∧ (Config.tag_type cfg = "linked" →
           ∃ u1 u2, e_url e1 = Ok u1 ∧ e_url e2 = Ok u2 ∧ u1 ≠ u2).
Proof.
  unfold select_pair. intros H.
  destruct (getitem locations e1_index) as [x1|] eqn:H1; [|discriminate].
  destruct (getitem locations e2_index) as [x2|] eqn:H2; [|discriminate].
  simpl in H.
  apply getitem_Ok in H1. apply getitem_Ok in H2.
  destruct (_ || _) eqn:Hguard in H; [discriminate|].
  repeat (apply orb_false_iff in Hguard; destruct Hguard as [Hguard ?]).
  destruct (Sentence.config self) as [cfg|] eqn:Hcfg; [|discriminate].
  simpl in H.
  destruct (_ && _) eqn:Hsame in H; [discriminate|].
  assert (Hsel : x1 = e1 ∧ x2 = e2
                 ∧ (Config.tag_type cfg = "linked" →
                    ∃ u1 u2, e_url x1 = Ok u1 ∧ e_url x2 = Ok u2 ∧ u1 ≠ u2)).
  { case_bool_decide as Hl; simpl in H.
    - destruct (e_url x1) as [u1|]; [|discriminate].
      destruct (e_url x2) as [u2|]; [|discriminate]. simpl in H.
      case_bool_decide; [discriminate|]. inversion H; subst. eauto 10.
    - inversion H; subst. repeat split. intros; contradiction. }
  destruct Hsel as (-> & -> & Hurl).
  repeat match goal with
         | Hb : negb _ = false |- _ => apply negb_false_iff, bool_decide_eq_true in Hb
         | Hb : (_ <? _) = false |- _ => apply Z.ltb_ge in Hb
         end.
  repeat split; try done.
  exists cfg. repeat split; [| done].
  intros Hs Heq. apply andb_false_iff in Hsame.
  destruct Hsame as [Hf|Hf]; apply bool_decide_eq_false in Hf; contradiction.
Qed.

(** [sorted] lists the keys of the dictionary in strictly ascending
    order. *)
Lemma sorted_spec (locations : gmap Z Entity) :
  StronglySorted Z.le (sorted locations)
  ∧ NoDup (sorted locations)
  ∧ ∀ k, k ∈ sorted locations ↔ is_Some (locations !! k).
Proof.
  unfold sorted. split; [|split].
  - apply StronglySorted_merge_sort; apply _.
  - rewrite merge_sort_Permutation. apply NoDup_elements.
  - intros k. rewrite merge_sort_Permutation, elem_of_elements.
    apply elem_of_dom.
Qed.

Lemma adjacent_sorted (l : list Z) (i : nat) (a b : Z) :
  StronglySorted Z.le l → NoDup l →
  l !! i = Some a → l !! S i = Some b →
  a < b ∧ ∀ k, k ∈ l → ¬ (a < k < b).
Proof.
  intros Hs Hn Ha Hb.
  assert (Hl : l = take i l ++ a :: b :: drop (S (S i)) l).
  { rewrite <- (take_drop_middle l i a Ha) at 1. do 2 f_equal.
    symmetry. apply drop_S in Hb. by rewrite Hb. }
  rewrite Hl in Hs, Hn.
  apply StronglySorted_app in Hs. destruct Hs as (Hlt & _ & Hs2).
  apply StronglySorted_cons in Hs2. destruct Hs2 as [Hab Hs2].
  apply StronglySorted_cons in Hs2. destruct Hs2 as [Hbl _].
  apply NoDup_app in Hn. destruct Hn as (_ & _ & Hn).
  apply NoDup_cons in Hn. destruct Hn as [Hn _].
  assert (a ≤ b) by (by apply Forall_cons in Hab as [? _]).
  assert (a ≠ b) by (intros ->; apply Hn; left).
  split; [lia|].
  intros k Hk. rewrite Hl in Hk.
  apply elem_of_app in Hk. destruct Hk as [Hk|Hk].
  - specialize (Hlt k a Hk ltac:(left)). lia.
  - apply elem_of_cons in Hk. destruct Hk as [->|Hk]; [lia|].
    apply elem_of_cons in Hk. destruct Hk as [->|Hk]; [lia|].
    rewrite Forall_forall in Hbl. specialize (Hbl k Hk). lia.
Qed.

Lemma index_lookup {A : Type} (l : list A) (i : nat) (x : A) :
  l !! i = Some x → Py.index l (Z.of_nat i) = Ok x.
Proof.
  intros H. unfold Py.index, Py.len.
  pose proof (lookup_lt_Some _ _ _ H).
  cbv zeta.
  rewrite !(proj2 (Z.ltb_ge (Z.of_nat i) 0)) by lia.
  rewrite (proj2 (Z.leb_gt (Z.of_nat (length l)) (Z.of_nat i))) by lia.
  cbn [orb]. rewrite Nat2Z.id. rewrite H. reflexivity.
Qed.

(** A pair selected at two consecutive positions of the sorted keys has
    its start indices at a distance of at least [min_tokens] and at
    most [max_tokens]; its entities are the ones stored at the two
    keys, and no key lies strictly between them.  For such a pair the
    loop body is the emission of the pair. *)
Lemma selected_pair_distance_adjacent (self : Sentence.t)
    (locations : gmap Z Entity) (text_tokens : list string)
    (i : nat) (e1_index e2_index : Z) (e1 e2 : Entity) :
  sorted locations !! i = Some e1_index →
  sorted locations !! S i = Some e2_index →
  select_pair self locations e1_index e2_index = Ok (Some (e1, e2)) →
  Sentence.min_tokens self ≤ e2_index - e1_index ≤ Sentence.max_tokens self
  ∧ locations !! e1_index = Some e1 ∧ locations !! e2_index = Some e2
  ∧ e1_index < e2_index
  ∧ (∀ k, is_Some (locations !! k) → ¬ (e1_index < k < e2_index))
  ∧ find_pair_step locations text_tokens (sorted locations) self (Z.of_nat i)
    = emit_pair self text_tokens e1_index e2_index e1 e2.
Proof.
  intros Hi Hsi Hsel.
  destruct (select_pair_Some _ _ _ _ _ _ Hsel) as (H1 & H2 & Hd & _).
  destruct (sorted_spec locations) as (Hs & Hn & Hk).
  destruct (adjacent_sorted _ _ _ _ Hs Hn Hi Hsi) as [Hlt Hbetween].
  repeat split; try done; try lia.
  - intros k Hin. apply Hbetween. by apply Hk.
  - unfold find_pair_step.
    rewrite (index_lookup _ _ _ Hi). simpl.
    replace (Z.of_nat i + 1) with (Z.of_nat (S i)) by lia.
    rewrite (index_lookup _ _ _ Hsi). simpl.
    by rewrite Hsel.
Qed.

(** [emit_pair] needs the attribute [sentence]: without it the call
    of [add_relationship] is never reached. *)
Lemma emit_pair_no_sentence (self : Sentence.t) (text_tokens : list string)
    (e1_index e2_index : Z) (e1 e2 : Entity) :
  Sentence.sentence self = None →
  emit_pair self text_tokens e1_index e2_index e1 e2 = Raise AttributeError.
Proof.
  intros Hs. unfold emit_pair.
  destruct (Sentence.tagged_text self); simpl.
  - by rewrite Hs.
  - destruct (Sentence.pos_tagger self); simpl; [|done]. by rewrite Hs.
Qed.

Lemma emit_pair_Ok (self self' : Sentence.t) (text_tokens : list string)
    (e1_index e2_index : Z) (e1 e2 : Entity) :
  emit_pair self text_tokens e1_index e2_index e1 e2 = Ok self' →
  ∃ self1 sentence,
    Sentence.sentence self = Some sentence
    ∧ Sentence.relationships self1 = Sentence.relationships self
    ∧ Sentence.config self1 = Sentence.config self
    ∧ add_relationship self1 sentence text_tokens e1_index e2_index e1 e2 = Ok self'.
Proof.
  unfold emit_pair. intros H.
  destruct (Sentence.tagged_text self) eqn:Ht; simpl in H.
  - destruct (Sentence.sentence self) as [sn|] eqn:Hs; [|discriminate].
    simpl in H. exists self, sn. eauto.
  - destruct (Sentence.pos_tagger self) as [tg|]; [|discriminate]. simpl in H.
    destruct (Sentence.sentence self) as [sn|] eqn:Hs; [|discriminate].
    simpl in H. exists (Sentence.set_tagged_text self (tg text_tokens)), sn. eauto.
Qed.

Lemma find_pair_step_new (locations : gmap Z Entity) (text_tokens : list string)
    (sorted_keys : list Z) (self self' : Sentence.t) (i : Z) :
  find_pair_step locations text_tokens sorted_keys self i = Ok self' →
  Sentence.config self' = Sentence.config self
  ∧ ∃ new, Sentence.relationships self' = Sentence.relationships self ++ new
           ∧ ∀ r, r ∈ new → distinct_arguments self locations r.
Proof.
  unfold find_pair_step. intros H.
  destruct (Py.index sorted_keys i) as [k1|]; [|discriminate].
  destruct (Py.index sorted_keys (i + 1)) as [k2|]; [|discriminate].
  simpl in H.
  destruct (select_pair self locations k1 k2) as [[[e1 e2]|]|] eqn:Hsel;
    [| |discriminate]; simpl in H.
  2:{ inversion H; subst. split; [done|]. exists []. rewrite app_nil_r.
      split; [done|]. intros r Hr. by apply elem_of_nil in Hr. }
  apply select_pair_Some in Hsel.
  destruct Hsel as (H1 & H2 & _ & _ & _ & cfg & Hcfg & Hsimple & Hlinked).
  apply emit_pair_Ok in H.
  destruct H as (self1 & sn & _ & Hrel & Hcfg1 & Hadd).
  apply add_relationship_cases in Hadd.
  destruct Hadd as [->|(_ & tg & cfg' & a1 & a2 & _ & Hcfg' & Hscheme & ->)].
  { split; [done|]. exists []. rewrite app_nil_r.
    split; [done|]. intros r Hr. by apply elem_of_nil in Hr. }
  rewrite Hcfg1, Hcfg in Hcfg'. inversion Hcfg'; subst cfg'.
  split; [done|].
  eexists [_]. rewrite append_relationships, Hrel. split; [reflexivity|].
  intros r Hr. apply list_elem_of_singleton in Hr. subst r.
  exists cfg, k1, k2, e1, e2. simpl.
  destruct Hscheme as [(Hs & -> & ->)|(Hl & Hu1 & Hu2)].
  - repeat split; try done. left. repeat split; auto. all: by apply Hsimple.
  - destruct (Hlinked Hl) as (u1 & u2 & Hu1' & Hu2' & Hne).
    rewrite Hu1 in Hu1'. rewrite Hu2 in Hu2'.
    inversion Hu1'; inversion Hu2'; subst.
    repeat split; try done. right. by repeat split.
Qed.

Lemma find_pair_loop_new (locations : gmap Z Entity) (text_tokens : list string)
    (sorted_keys : list Z) (range : list Z) (self self' : Sentence.t) :
  for_each (find_pair_step locations text_tokens sorted_keys) range self = Ok self' →
  Sentence.config self' = Sentence.config self
  ∧ ∃ new, Sentence.relationships self' = Sentence.relationships self ++ new
           ∧ ∀ r, r ∈ new → distinct_arguments self locations r.
Proof.
  revert self. induction range as [|i range IH]; intros self H; simpl in H.
  - inversion H; subst. split; [done|]. exists []. rewrite app_nil_r.
    split; [done|]. intros r Hr. by apply elem_of_nil in Hr.
  - destruct (find_pair_step locations text_tokens sorted_keys self i)
      as [self1|] eqn:Hstep; [|discriminate]. simpl in H.
    apply find_pair_step_new in Hstep.
    destruct Hstep as (Hc1 & new1 & Hr1 & Hd1).
    destruct (IH _ H) as (Hc2 & new2 & Hr2 & Hd2).
    split; [congruence|]. exists (new1 ++ new2).
    split; [rewrite Hr2, Hr1; by rewrite app_assoc|].
    intros r Hr. apply elem_of_app in Hr. destruct Hr as [Hr|Hr]; [by apply Hd1|].
    destruct (Hd2 r Hr) as (cfg & k1 & k2 & e1 & e2 & Hcfg & Hrest).
    exists cfg, k1, k2, e1, e2. split; [congruence|done].
Qed.

(** C6: every relationship that [find_pair_entities] adds to the
    result list has two different arguments: under the simple scheme
    they are the surface strings of two entities of the index whose
    strings differ, under the linked scheme they are the URLs of two
    entities of the index, and they differ.  Pairs of the same
    referent are skipped. *)
Theorem emitted_arguments_differ (self self' : Sentence.t)
    (locations : gmap Z Entity) (text_tokens : list string) :
  find_pair_entities self locations text_tokens = Ok self' →
  ∃ new, Sentence.relationships self' = Sentence.relationships self ++ new
         ∧ ∀ r, r ∈ new →
                distinct_arguments self locations r
                ∧ Relationship.e1 r ≠ Relationship.e2 r.
Proof.
  unfold find_pair_entities. intros H.
  apply find_pair_loop_new in H. destruct H as (_ & new & Hrel & Hd).
  exists new. split; [done|]. intros r Hr. split; [by apply Hd|].
  destruct (Hd r Hr) as (? & ? & ? & ? & ? & ? & ? & ? & ? & Hne). exact Hne.
Qed.

(** Without the attribute [sentence] a step that returns has selected
    nothing and leaves the [Sentence] as it was. *)
Lemma find_pair_loop_no_sentence (locations : gmap Z Entity)
    (text_tokens : list string) (sorted_keys : list Z) (range : list Z)
    (self self' : Sentence.t) :
  Sentence.sentence self = None →
  for_each (find_pair_step locations text_tokens sorted_keys) range self = Ok self' →
  self' = self.
Proof.
  intros Hs. induction range as [|i range IH]; simpl; intros H.
  - congruence.
  - destruct (find_pair_step locations text_tokens sorted_keys self i)
      as [self1|] eqn:Hstep; [|discriminate]. simpl in H.
    assert (self1 = self) as ->; [|by apply IH].
    unfold find_pair_step in Hstep.
    destruct (Py.index sorted_keys i) as [k1|]; [|discriminate].
    destruct (Py.index sorted_keys (i + 1)) as [k2|]; [|discriminate].
    simpl in Hstep.
    destruct (select_pair self locations k1 k2) as [[[e1 e2]|]|];
      [| |discriminate]; simpl in Hstep.
    + by rewrite emit_pair_no_sentence in Hstep.
    + congruence.
Qed.

(** A [Sentence] that its constructor returns has no relationship at
    all: the constructor does not assign [self.sentence], so it
    returns only when no pair was selected. *)
Lemma init_never_emits (sentence e1_type e2_type : string)
    (max_tokens min_tokens window_size : Z) (pos_tagger : option tagger)
    (config : option Config.t) (self : Sentence.t) :
  Sentence_init sentence e1_type e2_type max_tokens min_tokens window_size
                pos_tagger config = Ok self →
  Sentence.relationships self = [].
Proof.
  unfold Sentence_init. intros H.
  destruct config as [cfg|]; [|discriminate]. simpl in H.
  destruct (Re.finditer _ sentence) as [entities|]; [|discriminate]. simpl in H.
  destruct (Py.len entities <? 2); [by inversion H|].
  destruct (Re.sub _ _ sentence) as [sentence_no_tags|]; [|discriminate]. simpl in H.
  destruct (extract_entities _ _ cfg) as [locations|]; [|discriminate]. simpl in H.
  unfold find_pair_entities in H.
  apply find_pair_loop_no_sentence in H; [|done]. by subst self.
Qed.

(** ** Properties of [Sentence.extract_entities] *)

Lemma for_each_app {S A : Type} (body : S → A → result S) (l1 l2 : list A) (self : S) :
  for_each body (l1 ++ l2) self = (self1 ← for_each body l1 self; for_each body l2 self1).
Proof.
  revert self. induction l1 as [|x l1 IH]; intros self; simpl; [done|].
  destruct (body self x); simpl; [apply IH|done].
Qed.

(** Entities that compare equal hash alike, so that the members of
    equal hash are the only ones a lookup has to compare. *)
Lemma Entity_eq_hash (x e : Entity) :
  Entity_eq x e = Ok true →
  (∃ u, e_url x = Ok u) ∨ (∃ s p t l, e = EntitySimple s p t l) →
  Entity_hash x = Entity_hash e.
Proof.
  destruct x as [s p t l|s p t l u], e as [s' p' t' l'|s' p' t' l' u']; simpl;
    intros H Hk.
  - inversion H as [Hb]. apply andb_true_iff in Hb. destruct Hb as [H1 H2].
    apply bool_decide_eq_true in H1, H2. by subst.
  - destruct Hk as [[u Hu]|(? & ? & ? & ? & He)]; discriminate.
  - discriminate.
  - inversion H as [Hb]. apply bool_decide_eq_true in Hb. by subst.
Qed.

Lemma set_contains_true (s : list Entity) (e : Entity) :
  set_contains s e = Ok true → ∃ x, x ∈ s ∧ Entity_eq x e = Ok true.
Proof.
  induction s as [|x s IH]; simpl; [discriminate|]. intros H.
  destruct (Entity_hash x =? Entity_hash e).
  - destruct (Entity_eq x e) as [[|]|] eqn:Heq; simpl in H; [| |discriminate].
    + exists x. split; [left|done].
    + destruct (IH H) as (y & Hy & Hey). exists y. split; [by right|done].
  - destruct (IH H) as (y & Hy & Hey). exists y. split; [by right|done].
Qed.

Lemma set_add_member (s s' : list Entity) (e : Entity) :
  set_add s e = Ok s' →
  (s' = s ∧ ∃ x, x ∈ s ∧ Entity_eq x e = Ok true) ∨ s' = s ++ [e].
Proof.
  unfold set_add. intros H.
  destruct (set_contains s e) as [[|]|] eqn:Hc; simpl in H; [| |discriminate].
  - left. split; [congruence|]. by apply set_contains_true.
  - right. congruence.
Qed.

Lemma extract_entity_cases (config : Config.t) (text_tokens : list string)
    (s s' : list Entity) (entity : string) :
  extract_entity config text_tokens s entity = Ok s' →
  (s' = s ∧ make_entity config text_tokens entity = Ok None)
  ∨ ∃ e, make_entity config text_tokens entity = Ok (Some e)
         ∧ ((s' = s ∧ ∃ x, x ∈ s ∧ Entity_eq x e = Ok true) ∨ s' = s ++ [e]).
Proof.
  unfold extract_entity. intros H.
  destruct (make_entity config text_tokens entity) as [[e|]|]; simpl in H;
    [| |discriminate].
  - right. exists e. split; [done|]. by apply set_add_member.
  - left. split; congruence.
Qed.

(** The set only grows, and its members are entities made from the
    matches. *)
Lemma extract_loop_grows (config : Config.t) (text_tokens : list string)
    (entities : list string) (s s' : list Entity) :
  for_each (extract_entity config text_tokens) entities s = Ok s' →
  (∀ x, x ∈ s → x ∈ s')
  ∧ (∀ x, x ∈ s' → x ∈ s ∨ ∃ entity, entity ∈ entities
                               ∧ make_entity config text_tokens entity = Ok (Some x)).
Proof.
  revert s. induction entities as [|entity entities IH]; intros s H; simpl in H.
  - inversion H; subst. split; [done|]. intros x Hx. by left.
  - destruct (extract_entity config text_tokens s entity) as [s1|] eqn:Hstep;
      [|discriminate]. simpl in H.
    destruct (IH _ H) as [Hsub Horigin].
    apply extract_entity_cases in Hstep.
    split.
    + intros x Hx. apply Hsub.
      destruct Hstep as [[-> _]|(e & _ & [[-> _]| ->])]; try done.
      apply elem_of_app. by left.
    + intros x Hx. destruct (Horigin x Hx) as [Hx1|(en & Hen & Hmk)].
      * destruct Hstep as [[-> _]|(e & Hmk & [[-> _]| ->])]; try by left.
        apply elem_of_app in Hx1. destruct Hx1 as [Hx1|Hx1]; [by left|].
        apply list_elem_of_singleton in Hx1. subst x.
        right. exists entity. split; [left|done].
      * right. exists en. split; [by right|done].
Qed.

(** Every entity made from a match is in the set, or equals a member
    that an earlier match put there. *)
Lemma extract_loop_covers (config : Config.t) (text_tokens : list string)
    (entities : list string) (s s' : list Entity) (entity : string) (e : Entity) :
  for_each (extract_entity config text_tokens) entities s = Ok s' →
  entity ∈ entities →
  make_entity config text_tokens entity = Ok (Some e) →
  ∃ x, x ∈ s' ∧ (x = e ∨ Entity_eq x e = Ok true).
Proof.
  intros H Hin Hmk.
  apply list_elem_of_split in Hin. destruct Hin as (l1 & l2 & ->).
  rewrite for_each_app in H.
  destruct (for_each _ l1 s) as [s1|]; [|discriminate]. simpl in H.
  destruct (extract_entity config text_tokens s1 entity) as [s2|] eqn:Hstep;
    [|discriminate]. simpl in H.
  apply extract_loop_grows in H. destruct H as [Hsub _].
  apply extract_entity_cases in Hstep. rewrite Hmk in Hstep.
  destruct Hstep as [[_ ?]|(e' & He' & Hcase)]; [discriminate|].
  inversion He'; subst e'.
  destruct Hcase as [[-> (x & Hx & Heq)]| ->].
  - exists x. split; [by apply Hsub|by right].
  - exists e. split; [|by left]. apply Hsub, elem_of_app. right. left.
Qed.

(** The keys of the index are the occurrences of the members of the
    set. *)
Lemma index_entities_keys (iteration : list Entity) (start : Z) :
  is_Some (index_entities iteration !! start)
  ↔ ∃ e, e ∈ iteration ∧ start ∈ e_locations e.
Proof.
  unfold index_entities.
  assert (Hinner : ∀ (e : Entity) (locs : list Z) (m : gmap Z Entity),
    is_Some (foldl (λ locations start0, <[start0 := e]> locations) m locs !! start)
    ↔ is_Some (m !! start) ∨ start ∈ locs).
  { intros e locs. induction locs as [|k locs IH]; intros m; simpl.
    - split; [by left|]. intros [H|H]; [done|]. by apply elem_of_nil in H.
    - rewrite IH. rewrite lookup_insert. case_decide as Hk.
      + subst k. split; [intros _; right; left|]. intros _. left. by eexists.
      + split.
        * intros [H|H]; [by left|]. right. by right.
        * intros [H|H]; [by left|]. apply elem_of_cons in H.
          destruct H as [->|H]; [done|]. by right. }
  assert (Houter : ∀ (l : list Entity) (m : gmap Z Entity),
    is_Some (foldl (λ locations e,
               foldl (λ locations start0, <[start0 := e]> locations) locations
                     (e_locations e)) m l !! start)
    ↔ is_Some (m !! start) ∨ ∃ e, e ∈ l ∧ start ∈ e_locations e).
  { induction l as [|e l IH]; intros m; simpl.
    - split; [by left|]. intros [H|(e & He & _)]; [done|]. by apply elem_of_nil in He.
    - rewrite IH, Hinner. split.
      + intros [[H|H]|(x & Hx & Hs)]; [by left| |].
        * right. exists e. split; [left|done].
        * right. exists x. split; [by right|done].
      + intros [H|(x & Hx & Hs)]; [left; by left|].
        apply elem_of_cons in Hx. destruct Hx as [->|Hx].
        * left. by right.
        * right. by exists x. }
  rewrite Houter, lookup_empty. split.
  - intros [H|H]; [by destruct H|done].
  - intros H. by right.
Qed.

(** The occurrences of an entity object are those of its surface
    string. *)
Lemma make_entity_locations (config : Config.t) (text_tokens : list string)
    (entity : string) (e : Entity) :
  make_entity config text_tokens entity = Ok (Some e) →
  find_locations (e_string e) text_tokens = Ok (e_parts e, e_locations e)
  ∧ ((Config.tag_type config = "simple" ∧ ∃ s p t l, e = EntitySimple s p t l)
     ∨ (Config.tag_type config = "linked" ∧ ∃ u, e_url e = Ok u)).
Proof.
  unfold make_entity. intros H.
  apply rbind_Ok in H as (ty & _ & H).
  apply rbind_Ok in H as (str & _ & H).
  apply rbind_Ok in H as ([parts locs] & Hloc & H).
  case_bool_decide as Hs.
  - inversion H; subst e. simpl. split; [done|]. left. eauto 10.
  - case_bool_decide as Hl; [|discriminate].
    apply rbind_Ok in H as (u & _ & H).
    inversion H; subst e. simpl. split; [done|]. right. eauto.
Qed.

(** The index has a key for every occurrence of the first parse of an
    entity and, under the simple scheme, for every occurrence of every
    parse. *)
Lemma first_parse_indexed (entities : list string) (text_tokens : list string)
    (config : Config.t) (locations : gmap Z Entity)
    (k : nat) (entity : string) (e : Entity) (start : Z) :
  extract_entities entities text_tokens config = Ok locations →
  entities !! k = Some entity →
  make_entity config text_tokens entity = Ok (Some e) →
  Config.tag_type config = "simple"
  ∨ (∀ (j : nat) (entity' : string) (e' : Entity),
       (j < k)%nat → entities !! j = Some entity' →
       make_entity config text_tokens entity' = Ok (Some e') →
       Entity_eq e' e ≠ Ok true) →
  start ∈ e_locations e →
  is_Some (locations !! start).
Proof.
  intros Hext Hk Hmk Hcase Hstart.
  unfold extract_entities in Hext.
  apply rbind_Ok in Hext as (s & Hloop & Hext). inversion Hext; subst locations.
  apply index_entities_keys.
  assert (Hgoal : ∃ x, x ∈ s ∧ start ∈ e_locations x).
  { destruct Hcase as [Hsimple|Hfirst].
    - destruct (extract_loop_covers _ _ _ _ _ entity e Hloop) as (x & Hx & Hxe);
        [by eapply list_elem_of_lookup_2|done|].
      exists x. split; [done|]. destruct Hxe as [->|Heq]; [done|].
      apply extract_loop_grows in Hloop. destruct Hloop as [_ Horigin].
      destruct (Horigin x Hx) as [Hnil|(en & _ & Hmkx)]; [by apply elem_of_nil in Hnil|].
      apply make_entity_locations in Hmkx. apply make_entity_locations in Hmk.
      destruct Hmkx as [Hlx [(_ & sx & px & tx & lx & ->)|[Hl _]]]; [|congruence].
      destruct Hmk as [Hle _]. simpl in *.
      inversion Heq as [Hb]. apply andb_true_iff in Hb. destruct Hb as [Hb _].
      apply bool_decide_eq_true in Hb. subst sx. rewrite Hle in Hlx.
      inversion Hlx; subst. done.
    - exists e. split; [|done].
      rewrite <- (take_drop_middle _ _ _ Hk) in Hloop.
      rewrite for_each_app in Hloop.
      apply rbind_Ok in Hloop as (s1 & Hl1 & Hloop). simpl in Hloop.
      apply rbind_Ok in Hloop as (s2 & Hstep & Hl2).
      apply extract_loop_grows in Hl2. destruct Hl2 as [Hsub _]. apply Hsub.
      apply extract_entity_cases in Hstep. rewrite Hmk in Hstep.
      destruct Hstep as [[_ ?]|(e0 & He0 & Hadd)]; [discriminate|].
      inversion He0; subst e0.
      destruct Hadd as [[_ (x & Hx & Heq)]| ->]; [|apply elem_of_app; right; left].
      exfalso.
      apply extract_loop_grows in Hl1. destruct Hl1 as [_ Horigin].
      destruct (Horigin x Hx) as [Hnil|(en & Hen & Hmkx)];
        [by apply elem_of_nil in Hnil|].
      apply list_elem_of_lookup_1 in Hen. destruct Hen as [j Hj].
      pose proof (lookup_lt_Some _ _ _ Hj) as Hjlt.
      rewrite lookup_take_Some in Hj. destruct Hj as [Hj Hjk].
      by apply (Hfirst j en x Hjk Hj Hmkx). }
  destruct Hgoal as (x & Hx & Hsx). exists x. split; [|done].
  by rewrite set_order_perm.
Qed.

(** ** Properties of [Relationship.__eq__] and [Relationship.__hash__] *)

Lemma Relationship_eq_true (r1 r2 : Relationship.t) :
  Relationship.eq r1 r2 = true
  ↔ Relationship.e1 r1 = Relationship.e1 r2
    ∧ Relationship.e2 r1 = Relationship.e2 r2
    ∧ Relationship.before r1 = Relationship.before r2
    ∧ Relationship.between r1 = Relationship.between r2
    ∧ Relationship.after r1 = Relationship.after r2.
Proof.
  unfold Relationship.eq. split.
  - intros H. destruct (_ && _) eqn:Hb in H; [|discriminate].
    repeat (apply andb_true_iff in Hb; destruct Hb as [Hb ?]).
    repeat match goal with
           | Hd : bool_decide _ = true |- _ => apply bool_decide_eq_true in Hd
           end.
    done.
  - intros (H1 & H2 & H3 & H4 & H5).
    by rewrite !bool_decide_eq_true_2 by done.
Qed.

(** X4: records that compare equal are hashed alike: to the same
    value, or both raise. *)
Lemma Relationship_hash_agrees (r1 r2 : Relationship.t) :
  Relationship.eq r1 r2 = true → Relationship_hash r1 = Relationship_hash r2.
Proof.
  intros H. apply Relationship_eq_true in H. destruct H as (H1 & H2 & H3 & H4 & H5).
  unfold Relationship_hash. by rewrite H1, H2, H3, H4, H5.
Qed.

(** With tuples as windows the hash is a value. *)
Lemma Relationship_hash_tuples (r : Relationship.t) (b m a : list (string * string)) :
  Relationship.before r = PyTuple b → Relationship.between r = PyTuple m →
  Relationship.after r = PyTuple a →
  ∃ h, Relationship_hash r = Ok h.
Proof.
  intros Hb Hm Ha. unfold Relationship_hash. rewrite Hb, Hm, Ha. simpl. eauto.
Qed.

(** With a list as a window the hash raises. *)
Lemma Relationship_hash_lists (r : Relationship.t) (b : list (string * string)) :
  Relationship.before r = PyList b → Relationship_hash r = Raise TypeError.
Proof. intros Hb. unfold Relationship_hash. by rewrite Hb. Qed.

(** X5: the windows of a relationship are slices of the tagged text:
    when the tagger returns a list, as the taggers of NLTK do, no
    relationship that [add_relationship] appends can be hashed. *)
Lemma appended_unhashable (self self' : Sentence.t) (sentence : string)
    (text_tokens : list string) (e1_index e2_index : Z) (e1 e2 : Entity)
    (tagged : list (string * string)) (r : Relationship.t) :
  Sentence.tagged_text self = Some (PyList tagged) →
  add_relationship self sentence text_tokens e1_index e2_index e1 e2 = Ok self' →
  Sentence.relationships self' = Sentence.relationships self ++ [r] →
  Relationship_hash r = Raise TypeError.
Proof.
  intros Htag H Hr. apply add_relationship_cases in H.
  destruct H as [->|(_ & tg & cfg & a1 & a2 & Htg & _ & _ & ->)].
  { symmetry in Hr. by apply app_singleton_neq in Hr. }
  rewrite append_relationships in Hr. apply app_inv_head in Hr.
  inversion Hr; subst r. rewrite Htag in Htg. inversion Htg; subst tg.
  by eapply Relationship_hash_lists.
Qed.

(** * Further properties of the operations *)

(** ** Occurrences of an entity: [tokenize_entity], [find_locations] *)

Lemma append_empty_r (s : string) : s +:+ "" = s.
Proof.
  induction s as [|c s IH]; [done|].
  change (String c (s +:+ "") = String c s). by rewrite IH.
Qed.

Lemma append_assoc (s1 s2 s3 : string) : (s1 +:+ s2) +:+ s3 = s1 +:+ (s2 +:+ s3).
Proof.
  induction s1 as [|c s1 IH]; [done|].
  change (String c ((s1 +:+ s2) +:+ s3) = String c (s1 +:+ (s2 +:+ s3))).
  by rewrite IH.
Qed.

Lemma text_of_app (l1 l2 : list string) : text_of (l1 ++ l2) = text_of l1 +:+ text_of l2.
Proof.
  induction l1 as [|x l1 IH]; [done|].
  change (x +:+ text_of (l1 ++ l2) = (x +:+ text_of l1) +:+ text_of l2).
  by rewrite IH, append_assoc.
Qed.

Lemma tokenize_entity_Ok (entity : string) (r : list string) :
  tokenize_entity entity = Ok r →
  (r = word_tokenize entity ∧ ∃ l a, r = l ++ [a] ∧ a ≠ ".")
  ∨ (∃ l a, word_tokenize entity = l ++ [a; "."] ∧ r = l ++ [a +:+ "."]).
Proof.
  unfold tokenize_entity. generalize (word_tokenize entity). intros parts H.
  destruct parts as [|b parts _] using rev_ind; [discriminate|].
  rewrite index_last in H. simpl in H.
  case_bool_decide as Hb.
  - subst b. destruct parts as [|a parts _] using rev_ind; [discriminate|].
    rewrite <- app_assoc in H. simpl in H.
    rewrite index_before_last in H. simpl in H.
    replace (parts ++ [a; "."]) with ((parts ++ [a]) ++ ["."]) in H
      by (by rewrite <- app_assoc).
    rewrite !removelast_last in H. inversion H; subst r.
    right. exists parts, a. by rewrite <- app_assoc.
  - inversion H; subst r. left. eauto.
Qed.

(** X2: when [tokenize_entity] returns, its tokens are never empty and
    spell the same text as the tokens of the tokenizer.  They are the
    tokens of the tokenizer, whose last one is then not ["."], or the
    tokenizer ended with a token [a] followed by ["."] and these two,
    and only these, are merged into the last token [a.]: every token in
    front of them is kept in its place. *)
Theorem tokenize_entity_text (entity : string) (r : list string) :
  tokenize_entity entity = Ok r →
  r ≠ []
  ∧ text_of r = text_of (word_tokenize entity)
  ∧ ((r = word_tokenize entity ∧ last r ≠ Some ".")
     ∨ ∃ l a, word_tokenize entity = l ++ [a; "."] ∧ r = l ++ [a +:+ "."]).
Proof.
  intros H. apply tokenize_entity_Ok in H.
  destruct H as [(-> & l & a & Hl & Ha)|(l & a & Hparts & ->)].
  - rewrite Hl. split; [by destruct l|]. split; [done|]. left.
    split; [done|]. rewrite last_snoc. congruence.
  - rewrite Hparts. split; [by destruct l|]. split.
    + rewrite !text_of_app. f_equal.
      change (((a +:+ ".") +:+ "") = a +:+ ("." +:+ "")).
      by rewrite append_assoc.
    + right. by exists l, a.
Qed.

Lemma slice_between {A : Type} (l : list A) (a b : Z) :
  0 ≤ a → 0 ≤ b →
  Py.slice l (Some a) (Some b) = take (Z.to_nat (b - a)) (drop (Z.to_nat a) l).
Proof.
  intros Ha Hb. unfold Py.slice, Py.bound, Py.len.
  rewrite (proj2 (Z.ltb_ge a 0)), (proj2 (Z.ltb_ge b 0)) by lia.
  destruct (Z.le_gt_cases a (Z.of_nat (length l))) as [Hal|Hal].
  - rewrite (Z.max_r 0 (Z.min _ a)), (Z.min_r _ a) by lia.
    destruct (Z.le_gt_cases b (Z.of_nat (length l))) as [Hbl|Hbl].
    + by rewrite (Z.max_r 0 (Z.min _ b)), (Z.min_r _ b) by lia.
    + rewrite (Z.max_r 0 (Z.min _ b)), (Z.min_l _ b) by lia.
      rewrite !take_ge; [done| |]; rewrite length_drop; lia.
  - rewrite !drop_ge by lia. by rewrite !take_nil.
Qed.

Lemma StronglySorted_filter_lt (P : Z → Prop) `{∀ x, Decision (P x)} (l : list Z) :
  StronglySorted Z.lt l → StronglySorted Z.lt (filter P l).
Proof.
  induction 1 as [|x l Hs IH Hall]; [constructor|].
  rewrite filter_cons. case_decide; [|done].
  constructor; [done|]. apply Forall_forall. intros y Hy.
  apply list_elem_of_filter in Hy. destruct Hy as [_ Hy].
  rewrite Forall_forall in Hall. by apply Hall.
Qed.

Lemma StronglySorted_range (n : Z) : StronglySorted Z.lt (Py.range n).
Proof.
  unfold Py.range. destruct (Z.le_gt_cases n 0) as [Hn|Hn].
  { rewrite seqZ_nil by done. constructor. }
  rewrite <- (Z2Nat.id n) by lia. generalize (Z.to_nat n). clear Hn. intros k.
  induction k as [|k IH]; [constructor|].
  rewrite seqZ_S. apply StronglySorted_app. split; [|split]; [|done|].
  - intros x y Hx Hy. apply list_elem_of_singleton in Hy. subst y.
    apply elem_of_seqZ in Hx. lia.
  - repeat constructor.
Qed.

(** What [find_locations] returns. *)
Lemma find_locations_Ok (entity_string : string) (text_tokens e_parts : list string)
    (locations : list Z) :
  find_locations entity_string text_tokens = Ok (e_parts, locations) →
  tokenize_entity entity_string = Ok e_parts
  ∧ (∀ i, i ∈ locations ↔
          0 ≤ i ∧ i + Py.len e_parts ≤ Py.len text_tokens
          ∧ take (length e_parts) (drop (Z.to_nat i) text_tokens) = e_parts)
  ∧ StronglySorted Z.lt locations.
Proof.
  unfold find_locations. intros H.
  apply rbind_Ok in H as (parts & Htok & H). inversion H; subst parts locations.
  clear H. split; [done|].
  assert (0 < length e_parts)%nat.
  { apply tokenize_entity_Ok in Htok.
    destruct Htok as [(_ & l & a & -> & _)|(l & a & _ & ->)];
      rewrite length_app; simpl; lia. }
  split.
  - intros i. rewrite list_elem_of_filter. unfold Py.range. rewrite elem_of_seqZ.
    unfold Py.len. split.
    + intros [Heq [Hi0 Hin]].
      rewrite slice_between in Heq by lia.
      replace (Z.to_nat (i + Z.of_nat (length e_parts) - i)) with (length e_parts)
        in Heq by lia.
      split; [lia|]. split; [|done].
      apply (f_equal length) in Heq. rewrite length_take, length_drop in Heq. lia.
    + intros (Hi0 & Hin & Heq). split; [|lia].
      rewrite slice_between by lia.
      by replace (Z.to_nat (i + Z.of_nat (length e_parts) - i)) with (length e_parts)
        by lia.
  - apply StronglySorted_filter_lt, StronglySorted_range.
Qed.

(** X1: the locations that [find_locations] returns are exactly the
    start indices at which the tokens of the entity occur one after the
    other in the sentence; every occurrence lies inside the sentence,
    and the locations are listed in strictly ascending order. *)
Theorem find_locations_occurrences (entity_string : string)
    (text_tokens e_parts : list string) (locations : list Z) :
  find_locations entity_string text_tokens = Ok (e_parts, locations) →
  (∀ i, i ∈ locations ↔
        0 ≤ i ∧ i + Py.len e_parts ≤ Py.len text_tokens
        ∧ take (length e_parts) (drop (Z.to_nat i) text_tokens) = e_parts)
  ∧ StronglySorted Z.lt locations.
Proof. intros H. by apply find_locations_Ok in H as (_ & ? & ?). Qed.

(** ** Identity of entities *)

(** X3: two entities that compare equal, each to the other, have the
    same hash: simple entities of one string and type, linked entities
    of one URL. *)
Theorem equal_entities_hash_alike (x e : Entity) :
  Entity_eq x e = Ok true → Entity_eq e x = Ok true → Entity_hash x = Entity_hash e.
Proof.
  destruct x as [s p t l|s p t l u], e as [s' p' t' l'|s' p' t' l' u']; simpl;
    intros H H'; try discriminate.
  - inversion H as [Hb]. apply andb_true_iff in Hb. destruct Hb as [H1 H2].
    apply bool_decide_eq_true in H1, H2. by subst.
  - inversion H as [Hb]. apply bool_decide_eq_true in Hb. by subst.
Qed.

(** ** The relationship that [add_relationship] appends *)

(** X8: [add_relationship] changes nothing but the list of
    relationships, to which it appends at most one record, behind the
    ones that are there; the record carries the sentence it was given
    and the types of the two entities. *)
Theorem add_relationship_frame (self self' : Sentence.t) (sentence : string)
    (text_tokens : list string) (e1_index e2_index : Z) (e1 e2 : Entity) :
  add_relationship self sentence text_tokens e1_index e2_index e1 e2 = Ok self' →
  same_attributes self self'
  ∧ Sentence.tagged_text self' = Sentence.tagged_text self
  ∧ (Sentence.relationships self' = Sentence.relationships self
     ∨ ∃ r, Sentence.relationships self' = Sentence.relationships self ++ [r]
            ∧ Relationship.sentence r = sentence
            ∧ Relationship.e1_type r = e_type e1
            ∧ Relationship.e2_type r = e_type e2).
Proof.
  intros H. apply add_relationship_cases in H.
  destruct H as [->|(_ & tg & cfg & a1 & a2 & _ & _ & _ & ->)].
  - split; [by repeat split|]. split; [done|by left].
  - split; [by repeat split|]. split; [done|]. right. eexists. by repeat split.
Qed.

(** X6: with a positive window size and indices that are not negative,
    the windows of the appended relationship are these pieces of the
    tagged text: before, the last [window_size] pairs in front of the
    first entity; between, the pairs from the end of the first entity
    to the start of the second; after, the first [window_size] pairs
    behind the second entity.  Neither the before nor the after window
    is longer than [window_size]. *)
Theorem appended_windows (self self' : Sentence.t) (sentence : string)
    (text_tokens : list string) (e1_index e2_index : Z) (e1 e2 : Entity)
    (tagged_text : pyseq) (r : Relationship.t) :
  Sentence.tagged_text self = Some tagged_text →
  0 < Sentence.window_size self → 0 ≤ e1_index → 0 ≤ e2_index →
  add_relationship self sentence text_tokens e1_index e2_index e1 e2 = Ok self' →
  Sentence.relationships self' = Sentence.relationships self ++ [r] →
  let w := Z.to_nat (Sentence.window_size self) in
  let front := take (Z.to_nat e1_index) (items tagged_text) in
  let stop1 := e1_index + Py.len (e_parts e1) in
  let stop2 := e2_index + Py.len (e_parts e2) in
  items (Relationship.before r) = drop (length front - w) front
  ∧ items (Relationship.between r)
    = take (Z.to_nat (e2_index - stop1)) (drop (Z.to_nat stop1) (items tagged_text))
  ∧ items (Relationship.after r) = take w (drop (Z.to_nat stop2) (items tagged_text))
  ∧ (length (items (Relationship.before r)) ≤ w)%nat
  ∧ (length (items (Relationship.after r)) ≤ w)%nat.
Proof.
  intros Htag Hw Hi1 Hi2 H Hr w front stop1 stop2.
  apply add_relationship_cases in H.
  destruct H as [->|(_ & tg & cfg & a1 & a2 & Htg & _ & _ & ->)].
  { symmetry in Hr. by apply app_singleton_neq in Hr. }
  rewrite append_relationships in Hr. apply app_inv_head in Hr.
  inversion Hr; subst r. rewrite Htag in Htg. inversion Htg; subst tg. simpl.
  assert (0 ≤ stop1 ∧ 0 ≤ stop2) as [Hs1 Hs2] by (unfold stop1, stop2, Py.len; lia).
  rewrite !items_slice.
  rewrite slice_to, slice_last_n, slice_between, slice_from, slice_to by lia.
  fold front w. repeat split.
  - rewrite length_drop. lia.
  - rewrite length_take. lia.
Qed.

(** X7: when the second entity starts where the first one ends, or
    before, there is nothing between them and [add_relationship]
    appends nothing. *)
Theorem nothing_between_discarded (self : Sentence.t) (sentence : string)
    (text_tokens : list string) (e1_index e2_index : Z) (e1 e2 : Entity)
    (tagged_text : pyseq) :
  Sentence.tagged_text self = Some tagged_text →
  0 ≤ e1_index → 0 ≤ e2_index →
  e2_index ≤ e1_index + Py.len (e_parts e1) →
  add_relationship self sentence text_tokens e1_index e2_index e1 e2 = Ok self.
Proof.
  intros Htag Hi1 Hi2 Hle. unfold add_relationship. rewrite Htag. simpl.
  rewrite slice_between by (unfold Py.len; lia).
  replace (Z.to_nat (e2_index - (e1_index + Py.len (e_parts e1)))) with O by lia.
  reflexivity.
Qed.

(** ** The loop of [find_pair_entities] *)

Lemma same_attributes_refl (self : Sentence.t) : same_attributes self self.
Proof. by repeat split. Qed.

Lemma same_attributes_trans (s1 s2 s3 : Sentence.t) :
  same_attributes s1 s2 → same_attributes s2 s3 → same_attributes s1 s3.
Proof.
  unfold same_attributes. intros (?&?&?&?&?&?&?&?) (?&?&?&?&?&?&?&?).
  repeat split; congruence.
Qed.

Lemma emit_pair_inv (self self' : Sentence.t) (text_tokens : list string)
    (e1_index e2_index : Z) (e1 e2 : Entity) :
  emit_pair self text_tokens e1_index e2_index e1 e2 = Ok self' →
  ∃ self1 sentence,
    Sentence.sentence self = Some sentence
    ∧ same_attributes self self1
    ∧ Sentence.relationships self1 = Sentence.relationships self
    ∧ tagged_once text_tokens self self1
    ∧ add_relationship self1 sentence text_tokens e1_index e2_index e1 e2 = Ok self'.
Proof.
  unfold emit_pair. intros H.
  destruct (Sentence.tagged_text self) eqn:Ht; simpl in H.
  - destruct (Sentence.sentence self) as [sn|] eqn:Hs; [|discriminate].
    simpl in H. exists self, sn. split; [done|].
    split; [apply same_attributes_refl|]. split; [done|]. split; [by left|done].
  - destruct (Sentence.pos_tagger self) as [tg|] eqn:Hp; [|discriminate]. simpl in H.
    destruct (Sentence.sentence self) as [sn|] eqn:Hs; [|discriminate].
    simpl in H. exists (Sentence.set_tagged_text self (tg text_tokens)), sn.
    split; [done|]. split; [by repeat split|]. split; [done|].
    split; [|done]. right. split; [done|]. by exists tg.
Qed.

Lemma find_pair_step_frame (locations : gmap Z Entity) (text_tokens : list string)
    (sorted_keys : list Z) (self self' : Sentence.t) (i : Z) :
  find_pair_step locations text_tokens sorted_keys self i = Ok self' →
  same_attributes self self'
  ∧ tagged_once text_tokens self self'
  ∧ ∃ new, Sentence.relationships self' = Sentence.relationships self ++ new
           ∧ (length new ≤ 1)%nat
           ∧ ∀ r, r ∈ new → of_sentence self r.
Proof.
  unfold find_pair_step. intros H.
  apply rbind_Ok in H as (k1 & _ & H). apply rbind_Ok in H as (k2 & _ & H).
  apply rbind_Ok in H as (sel & Hsel & H).
  destruct sel as [[e1 e2]|].
  2:{ inversion H; subst. split; [apply same_attributes_refl|]. split; [by left|].
      exists []. rewrite app_nil_r. split; [done|]. split; [simpl; lia|].
      intros r Hr. by apply elem_of_nil in Hr. }
  apply select_pair_Some in Hsel.
  destruct Hsel as (_ & _ & _ & Ht1 & Ht2 & _).
  apply emit_pair_inv in H.
  destruct H as (self1 & sn & Hsn & Hsame & Hrel & Htagged & Hadd).
  apply add_relationship_cases in Hadd.
  destruct Hadd as [->|(_ & tg & cfg & a1 & a2 & _ & _ & _ & ->)].
  - split; [done|]. split; [done|]. exists []. rewrite app_nil_r.
    split; [done|]. split; [simpl; lia|]. intros r Hr. by apply elem_of_nil in Hr.
  - split; [done|]. split; [done|].
    eexists [_]. rewrite append_relationships, Hrel. split; [reflexivity|].
    split; [simpl; lia|]. intros r Hr. apply list_elem_of_singleton in Hr. subst r.
    by repeat split.
Qed.

Lemma find_pair_loop_frame (locations : gmap Z Entity) (text_tokens : list string)
    (sorted_keys : list Z) (range : list Z) (self self' : Sentence.t) :
  for_each (find_pair_step locations text_tokens sorted_keys) range self = Ok self' →
  same_attributes self self'
  ∧ tagged_once text_tokens self self'
  ∧ ∃ new, Sentence.relationships self' = Sentence.relationships self ++ new
           ∧ (length new ≤ length range)%nat
           ∧ ∀ r, r ∈ new → of_sentence self r.
Proof.
  revert self. induction range as [|i range IH]; intros self H; simpl in H.
  - inversion H; subst. split; [apply same_attributes_refl|]. split; [by left|].
    exists []. rewrite app_nil_r. split; [done|]. split; [simpl; lia|].
    intros r Hr. by apply elem_of_nil in Hr.
  - apply rbind_Ok in H as (self1 & Hstep & H).
    apply find_pair_step_frame in Hstep.
    destruct Hstep as (Hs1 & Ht1 & new1 & Hr1 & Hl1 & Ho1).
    destruct (IH _ H) as (Hs2 & Ht2 & new2 & Hr2 & Hl2 & Ho2).
    split; [by eapply same_attributes_trans|]. split.
    + destruct Ht1 as [Ht1|(Hn1 & tg1 & Hp1 & Hg1)].
      * destruct Ht2 as [Ht2|(Hn2 & tg2 & Hp2 & Hg2)]; [left; congruence|].
        right. split; [congruence|]. exists tg2. split; [|done].
        destruct Hs1 as (_ & _ & _ & Hp & _). congruence.
      * destruct Ht2 as [Ht2|(Hn2 & _)]; [|congruence].
        right. split; [done|]. exists tg1. split; [done|congruence].
    + exists (new1 ++ new2). split; [rewrite Hr2, Hr1; by rewrite app_assoc|].
      split; [rewrite length_app; simpl; lia|].
      intros r Hr. apply elem_of_app in Hr. destruct Hr as [Hr|Hr]; [by apply Ho1|].
      destruct (Ho2 r Hr) as (H1 & H2 & H3).
      destruct Hs1 as (_ & _ & _ & _ & _ & He1 & He2 & Hsn).
      unfold of_sentence. repeat split; congruence.
Qed.

(** X10: [find_pair_entities] tags the text at most once: a tagged text
    that is there is kept, and one that is missing is left missing or
    set to what the tagger returns on the tokens of the sentence.  No
    other attribute but the list of relationships changes. *)
Theorem find_pair_entities_tags_once (self self' : Sentence.t)
    (locations : gmap Z Entity) (text_tokens : list string) :
  find_pair_entities self locations text_tokens = Ok self' →
  same_attributes self self'
  ∧ (∀ t, Sentence.tagged_text self = Some t → Sentence.tagged_text self' = Some t)
  ∧ (Sentence.tagged_text self = None →
     Sentence.tagged_text self' = None
     ∨ ∃ pos_tagger : tagger,
         Sentence.pos_tagger self = Some pos_tagger
         ∧ Sentence.tagged_text self' = Some (pos_tagger text_tokens)).
Proof.
  unfold find_pair_entities. intros H. apply find_pair_loop_frame in H.
  destruct H as (Hsame & Htag & _). split; [done|]. split.
  - intros t Ht. destruct Htag as [Hk|[Hn _]]; congruence.
  - intros Hn. destruct Htag as [Hk|[_ Hx]]; [left; congruence|by right].
Qed.

(** X11: the records that [find_pair_entities] appends come behind the
    ones that are there; there is at most one for each pair of
    neighbouring keys of the index; each carries the two expected
    types, in this order, and the sentence of the [Sentence]. *)
Theorem find_pair_entities_records (self self' : Sentence.t)
    (locations : gmap Z Entity) (text_tokens : list string) :
  find_pair_entities self locations text_tokens = Ok self' →
  ∃ new,
    Sentence.relationships self' = Sentence.relationships self ++ new
    ∧ (length new ≤ size locations - 1)%nat
    ∧ ∀ r, r ∈ new →
           Relationship.e1_type r = Sentence.e1_type self
           ∧ Relationship.e2_type r = Sentence.e2_type self
           ∧ Sentence.sentence self = Some (Relationship.sentence r).
Proof.
  unfold find_pair_entities. intros H. apply find_pair_loop_frame in H.
  destruct H as (_ & _ & new & Hrel & Hlen & Hof). exists new.
  split; [done|]. split; [|done].
  unfold Py.range, Py.len in Hlen. rewrite length_seqZ in Hlen.
  assert (length (sorted locations) = size locations) as Hsz.
  { unfold sorted. rewrite merge_sort_Permutation. by rewrite <- size_dom. }
  rewrite Hsz in Hlen. lia.
Qed.

(** X9: an index with fewer than two keys has no pair: the [Sentence]
    is returned as it is. *)
Theorem find_pair_entities_few_keys (self : Sentence.t) (locations : gmap Z Entity)
    (text_tokens : list string) :
  (size locations < 2)%nat →
  find_pair_entities self locations text_tokens = Ok self.
Proof.
  intros Hsize. unfold find_pair_entities.
  assert (length (sorted locations) = size locations) as Hsz.
  { unfold sorted. rewrite merge_sort_Permutation. by rewrite <- size_dom. }
  unfold Py.range, Py.len. rewrite Hsz. by rewrite seqZ_nil by lia.
Qed.

(** ** What the constructor returns and raises *)

(** X12: a [Sentence] that the constructor returns is the one it
    initialised at its start: it has no relationship, no tagged text
    and no attribute [sentence]. *)
Theorem init_returns_initial (sentence e1_type e2_type : string)
    (max_tokens min_tokens window_size : Z) (pos_tagger : option tagger)
    (config : option Config.t) (self : Sentence.t) :
  Sentence_init sentence e1_type e2_type max_tokens min_tokens window_size
                pos_tagger config = Ok self →
  self = Sentence.mk [] None max_tokens min_tokens window_size pos_tagger config
                     e1_type e2_type None.
Proof.
  unfold Sentence_init. intros H.
  apply rbind_Ok in H as (cfg & _ & H). apply rbind_Ok in H as (entities & _ & H).
  destruct (Py.len entities <? 2); [by inversion H|].
  apply rbind_Ok in H as (sentence_no_tags & _ & H).
  apply rbind_Ok in H as (locations & _ & H).
  unfold find_pair_entities in H.
  by apply find_pair_loop_no_sentence in H.
Qed.

(** X13: with a tagging scheme that is neither ["simple"] nor
    ["linked"] the constructor raises [TypeError] on every sentence:
    no pattern is found for the scheme and [re.finditer] is called on
    [None]. *)
Theorem init_unknown_scheme (sentence e1_type e2_type : string)
    (max_tokens min_tokens window_size : Z) (pos_tagger : option tagger)
    (cfg : Config.t) :
  Config.tag_type cfg ≠ "simple" → Config.tag_type cfg ≠ "linked" →
  Sentence_init sentence e1_type e2_type max_tokens min_tokens window_size
                pos_tagger (Some cfg) = Raise TypeError.
Proof.
  intros Hs Hl. unfold Sentence_init. simpl.
  rewrite lookup_entities_regexs.
  rewrite (bool_decide_eq_false_2 _ Hs), (bool_decide_eq_false_2 _ Hl).
  reflexivity.
Qed.

(** X14: under the linked scheme the constructor never gets to the
    tokens of the sentence: it raises [TypeError] exactly when the
    sentence has two or more entity matches, and returns otherwise. *)
Theorem init_linked_outcome (sentence e1_type e2_type : string)
    (max_tokens min_tokens window_size : Z) (pos_tagger : option tagger)
    (cfg : Config.t) (entities : list string) :
  Config.tag_type cfg = "linked" →
  Re.finditer (Some (Config.regex_linked cfg)) sentence = Ok entities →
  (Sentence_init sentence e1_type e2_type max_tokens min_tokens window_size
                 pos_tagger (Some cfg) = Raise TypeError
   ↔ (2 ≤ length entities)%nat)
  ∧ (Sentence_init sentence e1_type e2_type max_tokens min_tokens window_size
                   pos_tagger (Some cfg)
     = Ok (Sentence.mk [] None max_tokens min_tokens window_size pos_tagger (Some cfg)
                       e1_type e2_type None)
     ↔ (length entities < 2)%nat).
Proof.
  intros Htag Hfind.
  destruct (le_lt_dec 2 (length entities)) as [Hge|Hlt].
  - rewrite (init_linked_raises _ _ _ _ _ _ _ _ _ Htag Hfind Hge).
    split; split; try done. lia.
  - assert (Sentence_init sentence e1_type e2_type max_tokens min_tokens window_size
              pos_tagger (Some cfg)
            = Ok (Sentence.mk [] None max_tokens min_tokens window_size pos_tagger
                              (Some cfg) e1_type e2_type None)) as ->.
    { unfold Sentence_init. simpl. rewrite lookup_entities_regexs, Htag.
      rewrite (bool_decide_eq_false_2 ("linked" = "simple")) by done.
      rewrite (bool_decide_eq_true_2 ("linked" = "linked")) by done.
      rewrite Hfind. simpl.
      destruct (Z.ltb_spec (Py.len entities) 2) as [_|Hge];
        [done|unfold Py.len in Hge; lia]. }
    split; split; try done. lia.
Qed.

(** ** The index that [extract_entities] builds *)

Lemma insert_locations_lookup (e : Entity) (locs : list Z) (m : gmap Z Entity) (k : Z) :
  foldl (λ locations start, <[start := e]> locations) m locs !! k
  = if bool_decide (k ∈ locs) then Some e else m !! k.
Proof.
  revert m. induction locs as [|x locs IH]; intros m; simpl; [done|].
  rewrite IH. destruct (decide (k ∈ locs)) as [Hin|Hout].
  - rewrite !bool_decide_eq_true_2; [done|by right|done].
  - rewrite (bool_decide_eq_false_2 (k ∈ locs)) by done.
    destruct (decide (k = x)) as [->|Hne].
    + rewrite lookup_insert_eq. rewrite bool_decide_eq_true_2; [done|left].
    + rewrite lookup_insert_ne by done.
      rewrite bool_decide_eq_false_2; [done|].
      intros Hk. apply elem_of_cons in Hk. by destruct Hk.
Qed.

Lemma index_entities_app (l1 l2 : list Entity) :
  index_entities (l1 ++ l2)
  = foldl (λ locations e,
             foldl (λ locations start, <[start := e]> locations) locations (e_locations e))
          (index_entities l1) l2.
Proof. unfold index_entities. by rewrite foldl_app. Qed.

Lemma index_entities_snoc_lookup (l : list Entity) (e : Entity) (k : Z) :
  index_entities (l ++ [e]) !! k
  = if bool_decide (k ∈ e_locations e) then Some e else index_entities l !! k.
Proof. rewrite index_entities_app. simpl. apply insert_locations_lookup. Qed.

Lemma index_entities_lookup (l : list Entity) (k : Z) (e : Entity) :
  index_entities l !! k = Some e → e ∈ l ∧ k ∈ e_locations e.
Proof.
  induction l as [|x l IH] using rev_ind.
  { unfold index_entities. simpl. by rewrite lookup_empty. }
  rewrite index_entities_snoc_lookup. case_bool_decide as Hk.
  - intros H. inversion H; subst x. split; [|done]. apply elem_of_app. right. left.
  - intros H. destruct (IH H) as [Hin Hloc]. split; [|done].
    apply elem_of_app. by left.
Qed.

(** X16: when several entities claim a start index, the index holds at
    that key the entity that comes last among them in the iteration of
    the set. *)
Theorem index_entities_last_wins (l1 l2 : list Entity) (e : Entity) (k : Z) :
  k ∈ e_locations e →
  (∀ x, x ∈ l2 → k ∉ e_locations x) →
  index_entities (l1 ++ e :: l2) !! k = Some e.
Proof.
  intros Hk. induction l2 as [|y l2 IH] using rev_ind; intros Hl2.
  - rewrite index_entities_snoc_lookup. by rewrite bool_decide_eq_true_2.
  - replace (l1 ++ e :: l2 ++ [y]) with ((l1 ++ e :: l2) ++ [y])
      by (by rewrite <- app_assoc).
    rewrite index_entities_snoc_lookup.
    rewrite bool_decide_eq_false_2.
    + apply IH. intros x Hx. apply Hl2, elem_of_app. by left.
    + apply Hl2, elem_of_app. right. left.
Qed.

(** X15: every key of the index that [extract_entities] returns is an
    occurrence of the entity stored there: the entity was made from one
    of the matches, the key is one of its locations, and its tokens
    stand in the sentence from the key on, inside the sentence. *)
Theorem index_keys_are_occurrences (entities : list string) (text_tokens : list string)
    (config : Config.t) (locations : gmap Z Entity) (k : Z) (e : Entity) :
  extract_entities entities text_tokens config = Ok locations →
  locations !! k = Some e →
  (∃ entity, entity ∈ entities ∧ make_entity config text_tokens entity = Ok (Some e))
  ∧ k ∈ e_locations e
  ∧ 0 ≤ k ∧ k + Py.len (e_parts e) ≤ Py.len text_tokens
  ∧ take (length (e_parts e)) (drop (Z.to_nat k) text_tokens) = e_parts e.
Proof.
  intros Hext Hk. unfold extract_entities in Hext.
  apply rbind_Ok in Hext as (s & Hloop & Hext). inversion Hext; subst locations.
  apply index_entities_lookup in Hk. destruct Hk as [Hin Hloc].
  rewrite set_order_perm in Hin.
  apply extract_loop_grows in Hloop. destruct Hloop as [_ Horigin].
  destruct (Horigin e Hin) as [Hnil|(entity & Hen & Hmk)];
    [by apply elem_of_nil in Hnil|].
  split; [eauto|]. split; [done|].
  apply make_entity_locations in Hmk. destruct Hmk as [Hfl _].
  apply find_locations_Ok in Hfl. destruct Hfl as (_ & Hocc & _).
  by apply Hocc.
Qed.

(** *** The set of entities holds no entity twice *)

Lemma made_same_class (config : Config.t) (text_tokens : list string)
    (en1 en2 : string) (x y : Entity) :
  make_entity config text_tokens en1 = Ok (Some x) →
  make_entity config text_tokens en2 = Ok (Some y) →
  (∃ s p t l s' p' t' l', x = EntitySimple s p t l ∧ y = EntitySimple s' p' t' l')
  ∨ (∃ s p t l u s' p' t' l' u',
       x = EntityLinked s p t l u ∧ y = EntityLinked s' p' t' l' u').
Proof.
  intros Hx Hy. apply make_entity_locations in Hx, Hy.
  destruct Hx as [_ [(Hs & s1 & p1 & t1 & l1 & ->)|(Hl & u & Hu)]];
    destruct Hy as [_ [(Hs' & s2 & p2 & t2 & l2 & ->)|(Hl' & u' & Hu')]];
    try congruence.
  - left. eauto 10.
  - right. destruct x, y; try discriminate. eauto 20.
Qed.

Lemma made_eq_true (config : Config.t) (text_tokens : list string)
    (en1 en2 : string) (x y : Entity) :
  make_entity config text_tokens en1 = Ok (Some x) →
  make_entity config text_tokens en2 = Ok (Some y) →
  Entity_eq x y = Ok true →
  Entity_eq y x = Ok true ∧ Entity_hash x = Entity_hash y.
Proof.
  intros Hx Hy Heq.
  destruct (made_same_class _ _ _ _ _ _ Hx Hy)
    as [(?&?&?&?&?&?&?&?& -> & ->)|(?&?&?&?&?&?&?&?&?&?& -> & ->)];
    simpl in *.
  - inversion Heq as [Hb]. apply andb_true_iff in Hb. destruct Hb as [H1 H2].
    apply bool_decide_eq_true in H1, H2. subst.
    by rewrite !bool_decide_eq_true_2.
  - inversion Heq as [Hb]. apply bool_decide_eq_true in Hb. subst.
    by rewrite bool_decide_eq_true_2.
Qed.

Lemma set_contains_false (s : list Entity) (e x : Entity) :
  set_contains s e = Ok false → x ∈ s →
  Entity_hash x = Entity_hash e → Entity_eq x e ≠ Ok true.
Proof.
  induction s as [|y s IH]; simpl; intros H Hx Hh; [by apply elem_of_nil in Hx|].
  apply elem_of_cons in Hx.
  destruct (Entity_hash y =? Entity_hash e) eqn:Hyh.
  - destruct (Entity_eq y e) as [[|]|] eqn:Hye; simpl in H; try discriminate.
    destruct Hx as [->|Hx]; [congruence|by apply IH].
  - destruct Hx as [->|Hx]; [|by apply IH].
    apply Z.eqb_neq in Hyh. contradiction.
Qed.

Lemma set_add_cases (s s' : list Entity) (e : Entity) :
  set_add s e = Ok s' → s' = s ∨ (s' = s ++ [e] ∧ set_contains s e = Ok false).
Proof.
  unfold set_add. intros H.
  destruct (set_contains s e) as [[|]|] eqn:Hc; simpl in H; [| |discriminate].
  - left. congruence.
  - right. split; [congruence|done].
Qed.

Lemma extract_loop_unequal (config : Config.t) (text_tokens : list string)
    (entities : list string) (s s' : list Entity) :
  (∀ x, x ∈ s → ∃ en, make_entity config text_tokens en = Ok (Some x)) →
  pairwise_unequal s →
  for_each (extract_entity config text_tokens) entities s = Ok s' →
  pairwise_unequal s'.
Proof.
  revert s. induction entities as [|entity entities IH]; intros s Hmade Hpw H;
    simpl in H; [by inversion H; subst|].
  apply rbind_Ok in H as (s1 & Hstep & H).
  unfold extract_entity in Hstep.
  apply rbind_Ok in Hstep as (oe & Hmk & Hstep).
  destruct oe as [e|]; [|inversion Hstep; subst s1; by eapply IH].
  apply set_add_cases in Hstep. destruct Hstep as [->|[-> Hc]]; [by eapply IH|].
  apply (IH (s ++ [e])); [| |done].
  - intros x Hx. apply elem_of_app in Hx. destruct Hx as [Hx|Hx]; [by apply Hmade|].
    apply list_elem_of_singleton in Hx. subst x. eauto.
  - assert (Hnew : ∀ x, x ∈ s → Entity_eq x e ≠ Ok true ∧ Entity_eq e x ≠ Ok true).
    { intros x Hx. destruct (Hmade x Hx) as [en Hen]. split.
      - intros Heq. destruct (made_eq_true _ _ _ _ _ _ Hen Hmk Heq) as [_ Hh].
        by apply (set_contains_false _ _ _ Hc Hx Hh).
      - intros Heq. destruct (made_eq_true _ _ _ _ _ _ Hmk Hen Heq) as [Hsym Hh].
        by apply (set_contains_false _ _ _ Hc Hx (eq_sym Hh)). }
    intros i j x y Hij Hi Hj.
    apply lookup_app_Some in Hi, Hj.
    destruct Hi as [Hi|[Hil Hi]], Hj as [Hj|[Hjl Hj]].
    + by apply (Hpw i j).
    + apply list_lookup_singleton_Some in Hj. destruct Hj as [_ <-].
      apply Hnew. by eapply list_elem_of_lookup_2.
    + apply list_lookup_singleton_Some in Hi. destruct Hi as [_ <-].
      apply Hnew. by eapply list_elem_of_lookup_2.
    + apply list_lookup_singleton_Some in Hi, Hj. lia.
Qed.

(** X17: the index never holds two different objects for one entity:
    the entities stored at any two keys are the same object, or they do
    not compare equal. *)
Theorem index_entities_unequal (entities : list string) (text_tokens : list string)
    (config : Config.t) (locations : gmap Z Entity) (k1 k2 : Z) (x y : Entity) :
  extract_entities entities text_tokens config = Ok locations →
  locations !! k1 = Some x → locations !! k2 = Some y →
  x = y ∨ Entity_eq x y ≠ Ok true.
Proof.
  intros Hext H1 H2. unfold extract_entities in Hext.
  apply rbind_Ok in Hext as (s & Hloop & Hext). inversion Hext; subst locations.
  apply index_entities_lookup in H1, H2.
  destruct H1 as [H1 _], H2 as [H2 _]. rewrite set_order_perm in H1, H2.
  apply extract_loop_unequal in Hloop.
  - apply list_elem_of_lookup_1 in H1, H2.
    destruct H1 as [i Hi], H2 as [j Hj].
    destruct (decide (i = j)) as [->|Hij]; [left; congruence|].
    right. by apply (Hloop i j).
  - intros z Hz. by apply elem_of_nil in Hz.
  - intros i j z z' _ Hi. by rewrite lookup_nil in Hi.
Qed.

(** ** The pairs that [find_pair_entities] selects and emits *)

Lemma index_Ok_lookup {A : Type} (l : list A) (i : Z) (x : A) :
  0 ≤ i → Py.index l i = Ok x → l !! Z.to_nat i = Some x.
Proof.
  intros Hi. unfold Py.index. cbv zeta.
  rewrite (proj2 (Z.ltb_ge i 0)) by lia.
  destruct ((i <? 0) || (Py.len l <=? i)); [discriminate|].
  destruct (l !! Z.to_nat i); [|discriminate]. congruence.
Qed.

Lemma select_pair_same_attributes (s s' : Sentence.t) (locations : gmap Z Entity)
    (e1_index e2_index : Z) :
  same_attributes s s' →
  select_pair s' locations e1_index e2_index = select_pair s locations e1_index e2_index.
Proof.
  intros (Hmax & Hmin & _ & _ & Hcfg & He1 & He2 & _).
  unfold select_pair. by rewrite Hmax, Hmin, Hcfg, He1, He2.
Qed.

Lemma built_from_kept (text_tokens : list string) (s s' : Sentence.t) (p : pair)
    (r : Relationship.t) :
  same_attributes s s' → tagged_once text_tokens s s' →
  built_from s p r → built_from s' p r.
Proof.
  intros (_ & _ & Hw & _ & Hcfg & _) Htag. destruct p as [[[k1 k2] e1] e2].
  intros (tg & cfg & Ht & Hc & Hrest). exists tg, cfg.
  split; [destruct Htag as [Hk|[Hn _]]; congruence|].
  split; [congruence|]. by rewrite Hw.
Qed.

(** A step of the loop looks at two consecutive keys, and either they
    are not selected and nothing happens, or the pair is emitted. *)
Lemma find_pair_step_inv (locations : gmap Z Entity) (text_tokens : list string)
    (sorted_keys : list Z) (self self' : Sentence.t) (i : Z) :
  0 ≤ i →
  find_pair_step locations text_tokens sorted_keys self i = Ok self' →
  ∃ k1 k2,
    sorted_keys !! Z.to_nat i = Some k1 ∧ sorted_keys !! S (Z.to_nat i) = Some k2
    ∧ ((select_pair self locations k1 k2 = Ok None ∧ self' = self)
       ∨ ∃ e1 e2, select_pair self locations k1 k2 = Ok (Some (e1, e2))
                  ∧ emit_pair self text_tokens k1 k2 e1 e2 = Ok self').
Proof.
  intros Hi H. unfold find_pair_step in H.
  apply rbind_Ok in H as (k1 & Hk1 & H). apply rbind_Ok in H as (k2 & Hk2 & H).
  apply rbind_Ok in H as (sel & Hsel & H).
  apply index_Ok_lookup in Hk1; [|done]. apply index_Ok_lookup in Hk2; [|lia].
  replace (Z.to_nat (i + 1)) with (S (Z.to_nat i)) in Hk2 by lia.
  exists k1, k2. split; [done|]. split; [done|].
  destruct sel as [[e1 e2]|].
  - right. eauto.
  - left. split; [done|congruence].
Qed.

Lemma emit_pair_built (self self' : Sentence.t) (text_tokens : list string)
    (e1_index e2_index : Z) (e1 e2 : Entity) :
  emit_pair self text_tokens e1_index e2_index e1 e2 = Ok self' →
  same_attributes self self'
  ∧ tagged_once text_tokens self self'
  ∧ (Sentence.relationships self' = Sentence.relationships self
     ∨ ∃ r, Sentence.relationships self' = Sentence.relationships self ++ [r]
            ∧ built_from self' (e1_index, e2_index, e1, e2) r).
Proof.
  intros H. apply emit_pair_inv in H.
  destruct H as (self1 & sn & _ & Hsame & Hrel & Htagged & Hadd).
  apply add_relationship_cases in Hadd.
  destruct Hadd as [->|(_ & tg & cfg & a1 & a2 & Htg & Hcfg & Hscheme & ->)].
  - split; [done|]. split; [done|]. by left.
  - split; [done|]. split; [done|]. right. eexists.
    rewrite append_relationships, Hrel. split; [reflexivity|].
    exists tg, cfg. simpl. by repeat split.
Qed.

Lemma find_pair_loop_pairs (locations : gmap Z Entity) (text_tokens : list string)
    (sorted_keys : list Z) (range : list Z) (self self' : Sentence.t) :
  (∀ i, i ∈ range → 0 ≤ i) →
  for_each (find_pair_step locations text_tokens sorted_keys) range self = Ok self' →
  ∃ pairs : list pair,
    (∀ k1 k2 e1 e2,
       (k1, k2, e1, e2) ∈ pairs ↔
       ∃ i, i ∈ range
            ∧ sorted_keys !! Z.to_nat i = Some k1
            ∧ sorted_keys !! S (Z.to_nat i) = Some k2
            ∧ select_pair self locations k1 k2 = Ok (Some (e1, e2)))
    ∧ for_each (emit_selected text_tokens) pairs self = Ok self'
    ∧ ∃ new, Sentence.relationships self' = Sentence.relationships self ++ new
             ∧ ∀ r, r ∈ new → ∃ p, p ∈ pairs ∧ built_from self' p r.
Proof.
  revert self. induction range as [|i range IH]; intros self Hpos H; simpl in H.
  - inversion H; subst. exists []. split; [|split].
    + intros k1 k2 e1 e2. split; [intros Hp; by apply elem_of_nil in Hp|].
      intros (j & Hj & _). by apply elem_of_nil in Hj.
    + done.
    + exists []. rewrite app_nil_r. split; [done|].
      intros r Hr. by apply elem_of_nil in Hr.
  - apply rbind_Ok in H as (self1 & Hstep & H).
    assert (Hframe := Hstep). apply find_pair_step_frame in Hframe.
    destruct Hframe as (Hsame1 & _ & _).
    assert (Hrest := H). apply find_pair_loop_frame in Hrest.
    destruct Hrest as (Hsame2 & Htagged2 & _).
    apply find_pair_step_inv in Hstep; [|apply Hpos; left].
    destruct Hstep as (k1 & k2 & Hk1 & Hk2 & Hcase).
    destruct (IH self1) as (pairs & Hiff & Hemit & new & Hrel & Hbuilt);
      [intros j Hj; apply Hpos; by right|done|].
    assert (Hsel : ∀ a b, select_pair self1 locations a b = select_pair self locations a b)
      by (intros a b; by apply select_pair_same_attributes).
    destruct Hcase as [[Hnone ->]|(e1 & e2 & Hsome & Hemit1)].
    + exists pairs. split; [|split; [done|by exists new]].
      intros a b x y. rewrite Hiff. split.
      * intros (j & Hj & Hrest). exists j. split; [by right|done].
      * intros (j & Hj & Ha & Hb & Hs). apply elem_of_cons in Hj.
        destruct Hj as [->|Hj]; [|by exists j].
        rewrite Hk1 in Ha. rewrite Hk2 in Hb. inversion Ha; inversion Hb; subst.
        congruence.
    + exists ((k1, k2, e1, e2) :: pairs). split; [|split].
      * intros a b x y. rewrite elem_of_cons, Hiff. split.
        -- intros [Hp|(j & Hj & Ha & Hb & Hs)].
           ++ inversion Hp; subst. exists i. split; [left|done].
           ++ exists j. split; [by right|]. rewrite <- Hsel. done.
        -- intros (j & Hj & Ha & Hb & Hs). apply elem_of_cons in Hj.
           destruct Hj as [->|Hj].
           ++ left. rewrite Hk1 in Ha. rewrite Hk2 in Hb.
              inversion Ha; inversion Hb; subst. rewrite Hsome in Hs.
              by inversion Hs.
           ++ right. exists j. rewrite Hsel. done.
      * simpl. rewrite Hemit1. simpl. done.
      * apply emit_pair_built in Hemit1. destruct Hemit1 as (_ & _ & Hnew1).
        destruct Hnew1 as [Hsame|(r1 & Hr1 & Hb1)].
        -- exists new. split; [congruence|]. intros r Hr.
           destruct (Hbuilt r Hr) as (p & Hp & Hbp). exists p. split; [by right|done].
        -- exists (r1 :: new). split.
           ++ rewrite Hrel, Hr1. by rewrite <- app_assoc.
           ++ intros r Hr. apply elem_of_cons in Hr. destruct Hr as [->|Hr].
              ** exists (k1, k2, e1, e2). split; [left|].
                 by apply (built_from_kept text_tokens self1).
              ** destruct (Hbuilt r Hr) as (p & Hp & Hbp).
                 exists p. split; [by right|done].
Qed.

(** C7: what [find_pair_entities] does is to emit, in ascending order,
    exactly the pairs that sit at two consecutive places of the sorted
    keys of the index and pass the tests of the loop.  Every such pair
    has its start indices at a distance of at least [min_tokens] and at
    most [max_tokens], and its keys are adjacent in the ascending order
    of the keys of the index: no key lies strictly between them.  Every
    relationship it appends was built from one of these pairs. *)
Theorem find_pair_entities_neighbours (self self' : Sentence.t)
    (locations : gmap Z Entity) (text_tokens : list string) :
  find_pair_entities self locations text_tokens = Ok self' →
  ∃ pairs : list pair,
    (∀ p, p ∈ pairs ↔ selected_at self locations p)
    ∧ for_each (emit_selected text_tokens) pairs self = Ok self'
    ∧ (∀ e1_index e2_index e1 e2,
         (e1_index, e2_index, e1, e2) ∈ pairs →
         Sentence.min_tokens self ≤ e2_index - e1_index ≤ Sentence.max_tokens self
         ∧ locations !! e1_index = Some e1 ∧ locations !! e2_index = Some e2
         ∧ e1_index < e2_index
         ∧ ∀ k, is_Some (locations !! k) → ¬ (e1_index < k < e2_index))
    ∧ ∃ new, Sentence.relationships self' = Sentence.relationships self ++ new
             ∧ ∀ r, r ∈ new → ∃ p, p ∈ pairs ∧ built_from self' p r.
Proof.
  unfold find_pair_entities. intros H.
  apply find_pair_loop_pairs in H;
    [|intros i Hi; unfold Py.range in Hi; apply elem_of_seqZ in Hi; lia].
  destruct H as (pairs & Hiff & Hemit & Hnew). exists pairs.
  assert (Hsel : ∀ p, p ∈ pairs ↔ selected_at self locations p).
  { intros [[[k1 k2] e1] e2]. rewrite Hiff. unfold selected_at. split.
    - intros (i & _ & H1 & H2 & Hs). by exists (Z.to_nat i).
    - intros (i & H1 & H2 & Hs). exists (Z.of_nat i). rewrite Nat2Z.id.
      split; [|done]. unfold Py.range, Py.len. apply elem_of_seqZ.
      apply lookup_lt_Some in H2. lia. }
  split; [done|]. split; [done|]. split; [|done].
  intros k1 k2 e1 e2 Hp. apply Hsel in Hp. destruct Hp as (i & H1 & H2 & Hs).
  destruct (select_pair_Some _ _ _ _ _ _ Hs) as (Hl1 & Hl2 & Hd & _).
  destruct (sorted_spec locations) as (Hsorted & Hnodup & Hkeys).
  destruct (adjacent_sorted _ _ _ _ Hsorted Hnodup H1 H2) as [Hlt Hbetween].
  repeat split; try done; try lia.
  intros k Hin. apply Hbetween. by apply Hkeys.
Qed.

(** ** The keys of the index and the parses of an entity *)

Lemma made_eq_trans (config : Config.t) (text_tokens : list string)
    (en1 en2 en3 : string) (x y z : Entity) :
  make_entity config text_tokens en1 = Ok (Some x) →
  make_entity config text_tokens en2 = Ok (Some y) →
  make_entity config text_tokens en3 = Ok (Some z) →
  Entity_eq x y = Ok true → Entity_eq y z = Ok true → Entity_eq x z = Ok true.
Proof.
  intros Hx Hy Hz Hxy Hyz.
  destruct (made_same_class _ _ _ _ _ _ Hx Hy)
    as [(?&?&?&?&?&?&?&?& -> & ->)|(?&?&?&?&?&?&?&?&?&?& -> & ->)];
    destruct (made_same_class _ _ _ _ _ _ Hy Hz)
    as [(?&?&?&?&?&?&?&?& Hy' & ->)|(?&?&?&?&?&?&?&?&?&?& Hy' & ->)];
    try discriminate; inversion Hy'; subst; simpl in *.
  - injection Hxy as Hb. apply andb_true_iff in Hb. destruct Hb as [H1 H2].
    apply bool_decide_eq_true in H1, H2. subst. exact Hyz.
  - injection Hxy as Hb. apply bool_decide_eq_true in Hb. subst. exact Hyz.
Qed.

Lemma first_parse_app (config : Config.t) (text_tokens : list string)
    (l l' : list string) (k : nat) (e : Entity) :
  first_parse config text_tokens l k e → first_parse config text_tokens (l ++ l') k e.
Proof.
  intros [(entity & Hk & Hmk) Hfirst].
  pose proof (lookup_lt_Some _ _ _ Hk) as Hlt. split.
  - exists entity. split; [|done]. by rewrite lookup_app_l.
  - intros j entity' e' Hj Hl. rewrite lookup_app_l in Hl by lia.
    by apply (Hfirst j entity' e').
Qed.

(** The members of the set are first parses. *)
Lemma extract_loop_first_parses (config : Config.t) (text_tokens : list string)
    (entities : list string) (s : list Entity) :
  for_each (extract_entity config text_tokens) entities [] = Ok s →
  ∀ x, x ∈ s → ∃ k, first_parse config text_tokens entities k x.
Proof.
  revert s. induction entities as [|en l IH] using rev_ind; intros s H.
  { inversion H; subst. intros x Hx. by apply elem_of_nil in Hx. }
  rewrite for_each_app in H. apply rbind_Ok in H as (s1 & Hl & H). simpl in H.
  apply rbind_Ok in H as (s2 & Hstep & H). inversion H; subst s2. clear H.
  assert (Hold : ∀ x, x ∈ s1 → ∃ k, first_parse config text_tokens (l ++ [en]) k x).
  { intros x Hx. destruct (IH _ Hl x Hx) as [k Hk]. exists k. by apply first_parse_app. }
  unfold extract_entity in Hstep. apply rbind_Ok in Hstep as (oe & Hmk & Hstep).
  destruct oe as [e|]; [|inversion Hstep; by subst].
  apply set_add_cases in Hstep. destruct Hstep as [->|[-> Hc]]; [done|].
  intros x Hx. apply elem_of_app in Hx. destruct Hx as [Hx|Hx]; [by apply Hold|].
  apply list_elem_of_singleton in Hx. subst x.
  exists (length l). split.
  - exists en. split; [|done]. rewrite lookup_app_r by lia.
    by rewrite Nat.sub_diag.
  - intros j entity' e' Hj Hlook Hmk' Heq.
    rewrite lookup_app_l in Hlook by lia.
    destruct (extract_loop_covers _ _ _ _ _ entity' e' Hl) as (x & Hx & Hxe);
      [by eapply list_elem_of_lookup_2|done|].
    assert (Entity_eq x e = Ok true ∧ Entity_hash x = Entity_hash e) as [Hxeq Hh].
    { destruct Hxe as [->|Hxe'].
      - split; [done|]. by destruct (made_eq_true _ _ _ _ _ _ Hmk' Hmk Heq).
      - pose proof (proj2 (extract_loop_grows _ _ _ _ _ Hl) x Hx) as Horigin.
        destruct Horigin as [Hnil|(enx & _ & Hmkx)]; [by apply elem_of_nil in Hnil|].
        assert (Entity_eq x e = Ok true) as Hxeq
          by (by eapply (made_eq_trans _ _ _ _ _ _ _ _ Hmkx Hmk' Hmk)).
        split; [done|]. by destruct (made_eq_true _ _ _ _ _ _ Hmkx Hmk Hxeq). }
    by apply (set_contains_false _ _ _ Hc Hx Hh).
Qed.

(** The occurrences of a parse are keys when every earlier parse equal
    to it has its surface string. *)
Lemma same_string_parse_indexed (entities : list string) (text_tokens : list string)
    (config : Config.t) (locations : gmap Z Entity)
    (k : nat) (entity : string) (e : Entity) (start : Z) :
  extract_entities entities text_tokens config = Ok locations →
  entities !! k = Some entity →
  make_entity config text_tokens entity = Ok (Some e) →
  (∀ (j : nat) (entity' : string) (e' : Entity),
     (j < k)%nat → entities !! j = Some entity' →
     make_entity config text_tokens entity' = Ok (Some e') →
     Entity_eq e' e = Ok true → e_string e' = e_string e) →
  start ∈ e_locations e →
  is_Some (locations !! start).
Proof.
  intros Hext Hk Hmk Hsame Hstart. unfold extract_entities in Hext.
  apply rbind_Ok in Hext as (s & Hloop & Hext). inversion Hext; subst locations.
  apply index_entities_keys.
  rewrite <- (take_drop_middle _ _ _ Hk) in Hloop. rewrite for_each_app in Hloop.
  apply rbind_Ok in Hloop as (s1 & Hl1 & Hloop). simpl in Hloop.
  apply rbind_Ok in Hloop as (s2 & Hstep & Hl2).
  apply extract_loop_grows in Hl2. destruct Hl2 as [Hsub _].
  apply extract_entity_cases in Hstep. rewrite Hmk in Hstep.
  destruct Hstep as [[_ ?]|(e0 & He0 & Hadd)]; [discriminate|].
  inversion He0; subst e0.
  destruct Hadd as [[-> (x & Hx & Heq)]| ->].
  - exists x. split; [rewrite set_order_perm; by apply Hsub|].
    apply extract_loop_grows in Hl1. destruct Hl1 as [_ Horigin].
    destruct (Horigin x Hx) as [Hnil|(en & Hen & Hmkx)]; [by apply elem_of_nil in Hnil|].
    apply list_elem_of_lookup_1 in Hen. destruct Hen as [j Hj].
    rewrite lookup_take_Some in Hj. destruct Hj as [Hj Hjk].
    pose proof (Hsame j en x Hjk Hj Hmkx Heq) as Hstr.
    apply make_entity_locations in Hmkx, Hmk.
    destruct Hmkx as [Hlx _], Hmk as [Hle _]. rewrite Hstr, Hle in Hlx.
    inversion Hlx. congruence.
  - exists e. split; [|done]. rewrite set_order_perm.
    apply Hsub, elem_of_app. right. left.
Qed.

(** C4, as the set of entities behaves: the keys of the index are
    exactly the occurrences of the first parses, so a later parse that
    equals an earlier one adds no key of its own.  The occurrences of a
    parse are keys whenever every earlier parse equal to it has its
    surface string; under the simple scheme this holds of every parse,
    and every occurrence of every parse is a key. *)
Theorem index_keys_of_parses (entities : list string) (text_tokens : list string)
    (config : Config.t) (locations : gmap Z Entity) :
  extract_entities entities text_tokens config = Ok locations →
  (∀ start,
     is_Some (locations !! start)
     ↔ ∃ k e, first_parse config text_tokens entities k e ∧ start ∈ e_locations e)
  ∧ (∀ (k : nat) (entity : string) (e : Entity) (start : Z),
       entities !! k = Some entity →
       make_entity config text_tokens entity = Ok (Some e) →
       (∀ (j : nat) (entity' : string) (e' : Entity),
          (j < k)%nat → entities !! j = Some entity' →
          make_entity config text_tokens entity' = Ok (Some e') →
          Entity_eq e' e = Ok true → e_string e' = e_string e) →
       start ∈ e_locations e →
       is_Some (locations !! start))
  ∧ (Config.tag_type config = "simple" →
     ∀ (k : nat) (entity : string) (e : Entity) (start : Z),
       entities !! k = Some entity →
       make_entity config text_tokens entity = Ok (Some e) →
       start ∈ e_locations e →
       is_Some (locations !! start)).
Proof.
  intros Hext.
  assert (Hsame := same_string_parse_indexed entities text_tokens config locations).
  split; [|split].
  - intros start. split.
    + intros Hkey. unfold extract_entities in Hext.
      apply rbind_Ok in Hext as (s & Hloop & Hext). inversion Hext; subst locations.
      apply index_entities_keys in Hkey. destruct Hkey as (e & He & Hstart).
      rewrite set_order_perm in He.
      destruct (extract_loop_first_parses _ _ _ _ Hloop e He) as [k Hk]. eauto.
    + intros (k & e & [(entity & Hk & Hmk) Hfirst] & Hstart).
      apply (Hsame k entity e start Hext Hk Hmk); [|done].
      intros j entity' e' Hj Hl Hmk' Heq. by destruct (Hfirst j entity' e' Hj Hl Hmk').
  - intros k entity e start Hk Hmk Hstr Hstart. by apply (Hsame k entity e start).
  - intros Hsimple k entity e start Hk Hmk Hstart.
    apply (Hsame k entity e start Hext Hk Hmk); [|done].
    intros j entity' e' _ _ Hmk' Heq. apply make_entity_locations in Hmk'.
    destruct Hmk' as [_ [(_ & s0 & p0 & t0 & l0 & ->)|[Hl _]]]; [|congruence].
    simpl in Heq. inversion Heq as [Hb]. apply andb_true_iff in Hb.
    destruct Hb as [Hb _]. by apply bool_decide_eq_true in Hb.
Qed.

End Collaborators.


(** * The module at concrete inputs *)

Example findall_type :
  Re.findall (Some (Re.Seq (Re.Lit "<") (Re.Group (Re.Many1 Re.upper)))) "<ORG>Google</ORG>"
  = Ok ["ORG"].
Proof. reflexivity. Qed.

Example tokens_google_youtube :
  Re.sub (Some (Config.regex_clean_simple (example_config "simple"))) "" google_youtube
  = Ok "Google acquired YouTube in 2006 ."
  ∧ blank_tokenize "Google acquired YouTube in 2006 ." = google_youtube_tokens.
Proof. split; reflexivity. Qed.

Example index_google_youtube :
  extract_entities blank_tokenize length_hash id
    ["<ORG>Google</ORG>"; "<ORG>YouTube</ORG>"] google_youtube_tokens
    (example_config "simple")
  = Ok google_youtube_index.
Proof. vm_compute. reflexivity. Qed.

(** With the attribute [sentence] assigned from outside, the pair is
    selected and its relationship appended. *)
Example find_pair_google_youtube :
  find_pair_entities some_stopwords (with_sentence 3) google_youtube_index
                     google_youtube_tokens
  = Ok (Sentence.append
          (Sentence.set_tagged_text (with_sentence 3) (list_tagger google_youtube_tokens))
          (Relationship.mk google_youtube
             (PyList []) (PyList [("acquired", "VBD")])
             (PyList [("in", "NN"); ("2006", "NN"); (".", "NN")])
             "Google" "YouTube" "ORG" "ORG")).
Proof. vm_compute. reflexivity. Qed.

(** On the [Sentence] as the constructor leaves it, the same call
    raises where [self.sentence] is read. *)
Example find_pair_constructed :
  find_pair_entities some_stopwords (constructed 3) google_youtube_index
                     google_youtube_tokens
  = Raise AttributeError.
Proof. vm_compute. reflexivity. Qed.

(** C1: on the sentence of Google and YouTube, whose one pair is
    selected and has a valid between context, the constructor raises
    [AttributeError] where it reads [self.sentence]: no relationship is
    appended. *)
Theorem init_selected_pair_raises :
  Sentence_init blank_tokenize some_stopwords length_hash id
                google_youtube "ORG" "ORG" 6 1 3
                (Some list_tagger) (Some (example_config "simple"))
  = Raise AttributeError.
Proof. vm_compute. reflexivity. Qed.

(** C2: under the linked scheme, on a sentence with two entities, the
    constructor raises [TypeError]: the pattern to clean the tags is
    looked up under ["linked"] in a dictionary whose keys are
    ["simple"] and ["clean"]. *)
Theorem init_linked_scheme_raises :
  Sentence_init blank_tokenize some_stopwords length_hash id
                google_youtube_linked "ORG" "ORG" 6 1 3
                (Some list_tagger) (Some (example_config "linked"))
  = Raise TypeError.
Proof. vm_compute. reflexivity. Qed.

(** C3: with a window size of zero the before window of the appended
    relationship holds the two tagged tokens in front of the first
    entity, more than the window size; the after window is empty. *)
Theorem window_zero_before_exceeds :
  let text_tokens := ["In"; "2006"; "Google"; "acquired"; "YouTube"; "."] in
  let self :=
    Sentence.mk [] (Some (list_tagger text_tokens)) 6 1 0 (Some list_tagger)
                (Some (example_config "simple")) "ORG" "ORG" None in
  ∃ r,
    add_relationship some_stopwords self "In 2006 Google acquired YouTube ." text_tokens
      2 4 (EntitySimple "Google" ["Google"] "ORG" [2])
      (EntitySimple "YouTube" ["YouTube"] "ORG" [4])
    = Ok (Sentence.append self r)
    ∧ Sentence.window_size self = 0
    ∧ Relationship.before r = PyList [("In", "NN"); ("2006", "NN")]
    ∧ Py.len (items (Relationship.before r)) = 2
    ∧ Relationship.after r = PyList [].
Proof.
  intros text_tokens self. eexists. split; [vm_compute; reflexivity|].
  repeat split.
Qed.

(** C9: two relationships with equal arguments and equal windows, taken
    from different sentences, compare equal, but they have no hash: the
    windows are lists, and hashing either relationship raises
    [TypeError], whatever the hash of strings and tuples is. *)
Theorem equal_relationships_unhashable (hash_str : string → Z) (hash_tuple : list Z → Z) :
  let r1 :=
    Relationship.mk "<ORG>Google</ORG> acquired <ORG>YouTube</ORG> in 2006 ."
      (PyList []) (PyList [("acquired", "VBD")]) (PyList [("in", "NN")])
      "Google" "YouTube" "ORG" "ORG" in
  let r2 :=
    Relationship.mk "<ORG>Google</ORG> acquired <ORG>YouTube</ORG> in May ."
      (PyList []) (PyList [("acquired", "VBD")]) (PyList [("in", "NN")])
      "Google" "YouTube" "ORG" "ORG" in
  Relationship.eq r1 r2 = true
  ∧ Relationship_hash hash_str hash_tuple r1 = Raise TypeError
  ∧ Relationship_hash hash_str hash_tuple r2 = Raise TypeError.
Proof. intros r1 r2. repeat split. Qed.

(** With tuples as windows the same two relationships have one hash. *)
Example equal_relationships_tuples (hash_str : string → Z) (hash_tuple : list Z → Z) :
  let r1 :=
    Relationship.mk "<ORG>Google</ORG> acquired <ORG>YouTube</ORG> in 2006 ."
      (PyTuple []) (PyTuple [("acquired", "VBD")]) (PyTuple [("in", "NN")])
      "Google" "YouTube" "ORG" "ORG" in
  let r2 :=
    Relationship.mk "<ORG>Google</ORG> acquired <ORG>YouTube</ORG> in May ."
      (PyTuple []) (PyTuple [("acquired", "VBD")]) (PyTuple [("in", "NN")])
      "Google" "YouTube" "ORG" "ORG" in
  Relationship.eq r1 r2 = true
  ∧ ∃ h, Relationship_hash hash_str hash_tuple r1 = Ok h
         ∧ Relationship_hash hash_str hash_tuple r2 = Ok h.
Proof. intros r1 r2. split; [reflexivity|]. eexists. split; reflexivity. Qed.

(** C4 fails under the linked scheme: two matches with the same URL
    and different surface strings are equal entities; the set keeps the
    first one, and the occurrence of the second one at token 3 is not a
    key of the index. *)
Lemma linked_duplicates_not_merged :
  ¬ duplicates_merged blank_tokenize length_hash id
      ["<ORG url=Google>Google Inc</ORG>"; "<ORG url=Google>Google</ORG>"]
      ["Google"; "Inc"; "owns"; "Google"]
      (example_config "linked").
Proof.
  intros H.
  assert (Hext : extract_entities blank_tokenize length_hash id
            ["<ORG url=Google>Google Inc</ORG>"; "<ORG url=Google>Google</ORG>"]
            ["Google"; "Inc"; "owns"; "Google"] (example_config "linked")
          = Ok google_inc_index) by (vm_compute; reflexivity).
  assert (Hmk1 : make_entity blank_tokenize (example_config "linked")
            ["Google"; "Inc"; "owns"; "Google"] "<ORG url=Google>Google Inc</ORG>"
          = Ok (Some google_inc)) by (vm_compute; reflexivity).
  assert (Hmk2 : make_entity blank_tokenize (example_config "linked")
            ["Google"; "Inc"; "owns"; "Google"] "<ORG url=Google>Google</ORG>"
          = Ok (Some (EntityLinked "Google" ["Google"] "ORG" [0; 3] "Google")))
    by (vm_compute; reflexivity).
  specialize (H _ Hext 0%nat 1%nat _ _ _ _ ltac:(done) eq_refl eq_refl Hmk1 Hmk2
                eq_refl 3).
  destruct H as [x Hx].
  - right. right. left.
  - vm_compute in Hx. discriminate.
Qed.

(** * The properties at concrete inputs *)

Lemma tokenize_entity_partial_witness :
  tokenize_entity blank_tokenize "Acme Corp ." = Ok ["Acme"; "Corp."]
  ∧ tokenize_entity blank_tokenize "." = Raise IndexError.
Proof.
  split.
  - destruct (proj1 (tokenize_entity_partial blank_tokenize "Acme Corp ."))
      as (prev & final & H1 & H2 & H3); [simpl; lia|].
    vm_compute in H1, H2. inversion H1; inversion H2; subst. exact H3.
  - apply (proj2 (tokenize_entity_partial blank_tokenize ".")). right. reflexivity.
Defined.

Lemma init_few_entities_witness :
  ∃ self,
    Sentence_init blank_tokenize some_stopwords length_hash id
                  "<ORG>Google</ORG> was founded in 1998 ." "ORG" "ORG" 6 1 3
                  (Some list_tagger) (Some (example_config "simple")) = Ok self
    ∧ Sentence.relationships self = []
    ∧ Sentence.tagged_text self = None.
Proof.
  apply (init_few_entities blank_tokenize some_stopwords length_hash id
           "<ORG>Google</ORG> was founded in 1998 ." "ORG" "ORG" 6 1 3
           (Some list_tagger) (example_config "simple")
           (Config.regex_simple (example_config "simple")) ["<ORG>Google</ORG>"]).
  - left. split; reflexivity.
  - vm_compute. reflexivity.
  - simpl. lia.
Defined.

Lemma between_not_all_invalid_witness :
  ∃ x, x ∈ ["acquired"] ∧ x ∉ not_valid some_stopwords.
Proof.
  pose (self := Sentence.set_tagged_text (with_sentence 3)
                  (list_tagger google_youtube_tokens)).
  refine (proj1 (between_not_all_invalid some_stopwords self _
                   google_youtube google_youtube_tokens 0 2 google youtube _) _ _).
  - vm_compute. reflexivity.
  - reflexivity.
Defined.

Lemma emitted_arguments_differ_witness :
  ∃ new,
    [Relationship.mk google_youtube
       (PyList []) (PyList [("acquired", "VBD")])
       (PyList [("in", "NN"); ("2006", "NN"); (".", "NN")])
       "Google" "YouTube" "ORG" "ORG"] = [] ++ new
    ∧ ∀ r, r ∈ new →
           distinct_arguments (with_sentence 3) google_youtube_index r
           ∧ Relationship.e1 r ≠ Relationship.e2 r.
Proof.
  exact (emitted_arguments_differ some_stopwords (with_sentence 3) _
           google_youtube_index google_youtube_tokens find_pair_google_youtube).
Defined.

Lemma find_pair_entities_neighbours_witness :
  ∃ pairs : list pair,
    (∀ p, p ∈ pairs ↔ selected_at (with_sentence 3) google_youtube_index p)
    ∧ for_each (emit_selected some_stopwords google_youtube_tokens) pairs (with_sentence 3)
      = Ok (Sentence.append google_youtube_tagged google_youtube_record)
    ∧ (∀ e1_index e2_index e1 e2,
         (e1_index, e2_index, e1, e2) ∈ pairs →
         1 ≤ e2_index - e1_index ≤ 6
         ∧ google_youtube_index !! e1_index = Some e1
         ∧ google_youtube_index !! e2_index = Some e2
         ∧ e1_index < e2_index
         ∧ ∀ k, is_Some (google_youtube_index !! k) → ¬ (e1_index < k < e2_index))
    ∧ ∃ new,
        [google_youtube_record] = [] ++ new
        ∧ ∀ r, r ∈ new →
               ∃ p, p ∈ pairs
                    ∧ built_from (Sentence.append google_youtube_tagged google_youtube_record)
                                 p r.
Proof.
  exact (find_pair_entities_neighbours some_stopwords (with_sentence 3) _
           google_youtube_index google_youtube_tokens find_pair_google_youtube).
Defined.

Lemma index_keys_of_parses_witness :
  (∀ start,
     is_Some (google_inc_index !! start)
     ↔ ∃ k e, first_parse blank_tokenize (example_config "linked")
                ["Google"; "Inc"; "owns"; "Google"]
                ["<ORG url=Google>Google Inc</ORG>"; "<ORG url=Google>Google</ORG>"] k e
              ∧ start ∈ e_locations e)
  ∧ is_Some (google_inc_index !! 0).
Proof.
  destruct (index_keys_of_parses blank_tokenize length_hash id
              (λ l, Permutation_refl l)
              ["<ORG url=Google>Google Inc</ORG>"; "<ORG url=Google>Google</ORG>"]
              ["Google"; "Inc"; "owns"; "Google"] (example_config "linked")
              google_inc_index) as (Hkeys & Hsame & _).
  - vm_compute. reflexivity.
  - split; [exact Hkeys|].
    apply (Hsame 0%nat "<ORG url=Google>Google Inc</ORG>" google_inc 0).
    + reflexivity.
    + vm_compute. reflexivity.
    + intros j entity' e' Hj. lia.
    + left.
Defined.

(** * The further properties at concrete inputs *)

Lemma find_locations_occurrences_witness :
  (∀ i, i ∈ [0; 2] ↔
        0 ≤ i ∧ i + Py.len ["John"] ≤ Py.len john_tokens
        ∧ take (length ["John"]) (drop (Z.to_nat i) john_tokens) = ["John"])
  ∧ StronglySorted Z.lt [0; 2].
Proof.
  apply (find_locations_occurrences blank_tokenize "John" john_tokens ["John"] [0; 2]).
  vm_compute. reflexivity.
Defined.

Lemma tokenize_entity_text_witness :
  ["Acme"; "Corp."] ≠ []
  ∧ text_of ["Acme"; "Corp."] = text_of (blank_tokenize "Acme Corp .")
  ∧ ((["Acme"; "Corp."] = blank_tokenize "Acme Corp ."
      ∧ last ["Acme"; "Corp."] ≠ Some ".")
     ∨ ∃ l a, blank_tokenize "Acme Corp ." = l ++ [a; "."]
              ∧ ["Acme"; "Corp."] = l ++ [a +:+ "."]).
Proof.
  apply (tokenize_entity_text blank_tokenize "Acme Corp ." ["Acme"; "Corp."]).
  vm_compute. reflexivity.
Defined.

Lemma equal_entities_hash_alike_witness :
  Entity_hash length_hash (EntitySimple "John" ["John"] "PER" [0; 2])
  = Entity_hash length_hash (EntitySimple "John" ["John"] "PER" []).
Proof.
  apply (equal_entities_hash_alike length_hash
           (EntitySimple "John" ["John"] "PER" [0; 2])
           (EntitySimple "John" ["John"] "PER" [])); reflexivity.
Defined.

Lemma Relationship_hash_agrees_witness :
  Relationship_hash length_hash (fold_right Z.add 0)
    (Relationship.mk "Google acquired YouTube in 2006 ."
       (PyTuple []) (PyTuple [("acquired", "VBD")]) (PyTuple [("in", "NN")])
       "Google" "YouTube" "ORG" "ORG")
  = Relationship_hash length_hash (fold_right Z.add 0)
      (Relationship.mk "Google acquired YouTube in May ."
         (PyTuple []) (PyTuple [("acquired", "VBD")]) (PyTuple [("in", "NN")])
         "Google" "YouTube" "COMPANY" "COMPANY").
Proof. apply Relationship_hash_agrees. reflexivity. Defined.

Lemma appended_unhashable_witness :
  Relationship_hash length_hash (fold_right Z.add 0) google_youtube_record
  = Raise TypeError.
Proof.
  apply (appended_unhashable some_stopwords length_hash (fold_right Z.add 0)
           google_youtube_tagged
           (Sentence.append google_youtube_tagged google_youtube_record)
           google_youtube google_youtube_tokens 0 2 google youtube
           (items (list_tagger google_youtube_tokens)) google_youtube_record).
  - reflexivity.
  - vm_compute. reflexivity.
  - reflexivity.
Defined.

Lemma appended_windows_witness :
  items (Relationship.before google_youtube_record) = []
  ∧ items (Relationship.between google_youtube_record) = [("acquired", "VBD")]
  ∧ items (Relationship.after google_youtube_record)
    = [("in", "NN"); ("2006", "NN"); (".", "NN")]
  ∧ (length (items (Relationship.before google_youtube_record)) ≤ 3)%nat
  ∧ (length (items (Relationship.after google_youtube_record)) ≤ 3)%nat.
Proof.
  apply (appended_windows some_stopwords google_youtube_tagged
           (Sentence.append google_youtube_tagged google_youtube_record)
           google_youtube google_youtube_tokens 0 2 google youtube
           (list_tagger google_youtube_tokens) google_youtube_record).
  - reflexivity.
  - reflexivity.
  - lia.
  - lia.
  - vm_compute. reflexivity.
  - reflexivity.
Defined.

Lemma nothing_between_discarded_witness :
  add_relationship some_stopwords google_youtube_tagged google_youtube
    ["Google"; "YouTube"] 0 1 google (EntitySimple "YouTube" ["YouTube"] "ORG" [1])
  = Ok google_youtube_tagged.
Proof.
  apply (nothing_between_discarded some_stopwords google_youtube_tagged google_youtube
           ["Google"; "YouTube"] 0 1 google
           (EntitySimple "YouTube" ["YouTube"] "ORG" [1])
           (list_tagger google_youtube_tokens)).
  - reflexivity.
  - lia.
  - lia.
  - vm_compute. discriminate.
Defined.

Lemma add_relationship_frame_witness :
  same_attributes google_youtube_tagged
    (Sentence.append google_youtube_tagged google_youtube_record)
  ∧ Sentence.tagged_text (Sentence.append google_youtube_tagged google_youtube_record)
    = Sentence.tagged_text google_youtube_tagged
  ∧ (Sentence.relationships (Sentence.append google_youtube_tagged google_youtube_record)
     = Sentence.relationships google_youtube_tagged
     ∨ ∃ r, Sentence.relationships
              (Sentence.append google_youtube_tagged google_youtube_record)
            = Sentence.relationships google_youtube_tagged ++ [r]
            ∧ Relationship.sentence r = google_youtube
            ∧ Relationship.e1_type r = e_type google
            ∧ Relationship.e2_type r = e_type youtube).
Proof.
  apply (add_relationship_frame some_stopwords google_youtube_tagged _ google_youtube
           google_youtube_tokens 0 2 google youtube).
  vm_compute. reflexivity.
Defined.

Lemma find_pair_entities_few_keys_witness :
  find_pair_entities some_stopwords (with_sentence 3) {[ 0 := google ]}
                     google_youtube_tokens
  = Ok (with_sentence 3).
Proof.
  apply (find_pair_entities_few_keys some_stopwords (with_sentence 3) {[ 0 := google ]}
           google_youtube_tokens).
  vm_compute. lia.
Defined.

Lemma find_pair_entities_tags_once_witness :
  same_attributes (with_sentence 3)
    (Sentence.append google_youtube_tagged google_youtube_record)
  ∧ (∀ t, Sentence.tagged_text (with_sentence 3) = Some t →
          Sentence.tagged_text (Sentence.append google_youtube_tagged google_youtube_record)
          = Some t)
  ∧ (Sentence.tagged_text (with_sentence 3) = None →
     Sentence.tagged_text (Sentence.append google_youtube_tagged google_youtube_record)
     = None
     ∨ ∃ pos_tagger : tagger,
         Sentence.pos_tagger (with_sentence 3) = Some pos_tagger
         ∧ Sentence.tagged_text
             (Sentence.append google_youtube_tagged google_youtube_record)
           = Some (pos_tagger google_youtube_tokens)).
Proof.
  exact (find_pair_entities_tags_once some_stopwords (with_sentence 3) _
           google_youtube_index google_youtube_tokens find_pair_google_youtube).
Defined.

Lemma find_pair_entities_records_witness :
  ∃ new,
    Sentence.relationships (Sentence.append google_youtube_tagged google_youtube_record)
    = Sentence.relationships (with_sentence 3) ++ new
    ∧ (length new ≤ size google_youtube_index - 1)%nat
    ∧ ∀ r, r ∈ new →
           Relationship.e1_type r = Sentence.e1_type (with_sentence 3)
           ∧ Relationship.e2_type r = Sentence.e2_type (with_sentence 3)
           ∧ Sentence.sentence (with_sentence 3) = Some (Relationship.sentence r).
Proof.
  exact (find_pair_entities_records some_stopwords (with_sentence 3) _
           google_youtube_index google_youtube_tokens find_pair_google_youtube).
Defined.

Lemma init_returns_initial_witness :
  ∃ self,
    Sentence_init blank_tokenize some_stopwords length_hash id
                  google_youtube "ORG" "ORG" 0 0 3
                  (Some list_tagger) (Some (example_config "simple")) = Ok self
    ∧ self = Sentence.mk [] None 0 0 3 (Some list_tagger)
                         (Some (example_config "simple")) "ORG" "ORG" None.
Proof.
  eexists. split; [vm_compute; reflexivity|].
  apply (init_returns_initial blank_tokenize some_stopwords length_hash id
           google_youtube "ORG" "ORG" 0 0 3 (Some list_tagger)
           (Some (example_config "simple"))).
  vm_compute. reflexivity.
Defined.

Lemma init_unknown_scheme_witness :
  Sentence_init blank_tokenize some_stopwords length_hash id
                google_youtube "ORG" "ORG" 6 1 3
                (Some list_tagger) (Some (example_config "plain"))
  = Raise TypeError.
Proof.
  apply (init_unknown_scheme blank_tokenize some_stopwords length_hash id
           google_youtube "ORG" "ORG" 6 1 3 (Some list_tagger) (example_config "plain"));
    discriminate.
Defined.

Lemma init_linked_outcome_witness :
  (Sentence_init blank_tokenize some_stopwords length_hash id
                 google_youtube_linked "ORG" "ORG" 6 1 3
                 (Some list_tagger) (Some (example_config "linked")) = Raise TypeError
   ↔ (2 ≤ 2)%nat)
  ∧ (Sentence_init blank_tokenize some_stopwords length_hash id
                   google_youtube_linked "ORG" "ORG" 6 1 3
                   (Some list_tagger) (Some (example_config "linked"))
     = Ok (Sentence.mk [] None 6 1 3 (Some list_tagger) (Some (example_config "linked"))
                       "ORG" "ORG" None)
     ↔ (2 < 2)%nat).
Proof.
  apply (init_linked_outcome blank_tokenize some_stopwords length_hash id
           google_youtube_linked "ORG" "ORG" 6 1 3 (Some list_tagger)
           (example_config "linked")
           ["<ORG url=Google_Inc>Google</ORG>"; "<ORG url=YouTube>YouTube</ORG>"]).
  - reflexivity.
  - vm_compute. reflexivity.
Defined.

Lemma index_entities_last_wins_witness :
  index_entities ([google_inc] ++ google_linked :: []) !! 0 = Some google_linked.
Proof.
  apply (index_entities_last_wins [google_inc] [] google_linked 0).
  - left.
  - intros x Hx. by apply elem_of_nil in Hx.
Defined.

Lemma index_keys_are_occurrences_witness :
  (∃ entity, entity ∈ ["<PER>John</PER>"; "<PER>John</PER>"]
             ∧ make_entity blank_tokenize (example_config "simple") john_tokens entity
               = Ok (Some john))
  ∧ 2 ∈ e_locations john
  ∧ 0 ≤ 2 ∧ 2 + Py.len (e_parts john) ≤ Py.len john_tokens
  ∧ take (length (e_parts john)) (drop (Z.to_nat 2) john_tokens) = e_parts john.
Proof.
  apply (index_keys_are_occurrences blank_tokenize length_hash id
           (λ l, Permutation_refl l)
           ["<PER>John</PER>"; "<PER>John</PER>"] john_tokens
           (example_config "simple") {[ 0 := john; 2 := john ]} 2 john).
  - vm_compute. reflexivity.
  - vm_compute. reflexivity.
Defined.

Lemma index_entities_unequal_witness :
  google = youtube ∨ Entity_eq google youtube ≠ Ok true.
Proof.
  apply (index_entities_unequal blank_tokenize length_hash id
           (λ l, Permutation_refl l)
           ["<ORG>Google</ORG>"; "<ORG>YouTube</ORG>"] google_youtube_tokens
           (example_config "simple") google_youtube_index 0 2 google youtube).
  - exact index_google_youtube.
  - reflexivity.
  - reflexivity.
Defined.
